(** * Unlearning engine of TA_Project: a shallow embedding of [main.py]

    The development follows [src/main.py] (the unlearning strategies, the
    masked update loop, the evaluator, the membership-inference attacker and
    the experiment driver) and [src/utils.py] ([compute_topk]).

    Conventions.
    - An integer tensor (labels, identity indices) is a [list Z]; torch stores
      them as 64-bit integers, so additions are wrapped with [wrap64].
    - A float tensor is a flat [list Q]: rationals stand for the reals the
      floats approximate; rounding, infinities and NaN are not modelled.
    - A Python [dict] with string keys is a [gmap string _].
    - An exception is [None] in the [option] monad.
    - The network, the loss criterion, automatic differentiation and the
      scikit-learn classifier are external: they are section variables, so
      every theorem holds for all of them. *)

From Stdlib Require Import ZArith QArith Lia Lqa.
From stdpp Require Import base option gmap strings list fin_maps.

Local Open Scope Z_scope.

(** ** Tensors *)

(** An integer tensor is a [list Z], a float tensor a [list Q]. *)

(** 64-bit two's complement wrap-around of torch's [int64] arithmetic. *)
Definition wrap64 (z : Z) : Z := (z + 2 ^ 63) mod 2 ^ 64 - 2 ^ 63.

Definition add64 (a b : Z) : Z := wrap64 (a + b).

(** [a % c] on tensors is [torch.remainder]: the result takes the sign of
    the divisor, as [Z.modulo] does. *)
Definition rem64 (a c : Z) : Z := a mod c.

(** [x[mask]]: the entries of [x] selected by a boolean mask of the same
    shape; a mask of another shape raises [IndexError]. *)
Fixpoint masked_select {A} (mask : list bool) (xs : list A) : option (list A) :=
  match mask, xs with
  | [], [] => Some []
  | b :: mask', x :: xs' =>
      ys ← masked_select mask' xs';
      Some (if b then x :: ys else ys)
  | _, _ => None
  end.

(** [x[mask] = vals]: writes the entries of [vals], in order, at the
    positions of [x] where the mask holds; the shapes must agree and [vals]
    must have one entry per selected position. *)
Fixpoint masked_put {A} (mask : list bool) (xs vals : list A) : option (list A) :=
  match mask, xs with
  | [], [] => match vals with [] => Some [] | _ => None end
  | true :: mask', _ :: xs' =>
      match vals with
      | v :: vals' => ys ← masked_put mask' xs' vals'; Some (v :: ys)
      | [] => None
      end
  | false :: mask', x :: xs' => ys ← masked_put mask' xs' vals; Some (x :: ys)
  | _, _ => None
  end.

(** Sum of a float tensor, accumulated left to right. *)
Definition qsum (xs : list Q) : Q := fold_left Qplus xs 0%Q.

(** [t.mean()]: sum over number of entries. *)
Definition mean (xs : list Q) : Q := (qsum xs / inject_Z (Z.of_nat (length xs)))%Q.

(** ** Data loaders *)

(** [loader.dataset.dataset]: the underlying labelled dataset with the
    identity indices to forget and the class names. *)
Record dataset := { FORGET : list Z; classes : list string }.

Section Engine.

(** Inputs and network outputs are opaque. *)
Variables Image Output : Type.

(** One batch yielded by a loader: [data["image"]], [data["label"]],
    [data["idx"]]. *)
Record batch := { image : list Image; label : list Z; idx : list Z }.

(** A [DataLoader]: the batches of one pass, [len(loader.dataset)] and the
    wrapped dataset. *)
Record loader := { batches : list batch; dataset_len : nat; ds : dataset }.

(** ** Model *)

(** A named parameter with its gradient buffer ([None] until a backward
    pass fills it). *)
Record param := { p_name : string; p_data : list Q; p_grad : option (list Q) }.

(** A model is the list [model.named_parameters()], in order. *)

(** [model(image)]. *)
Variable forward : list param -> list Image -> Output.

(** A [criterion] ([CrossEntropyLoss(reduction="none")] in the driver) maps
    an output and a label tensor to one loss per example. *)

(** ** Store of label tensors

    Label tensors are mutable objects passed by reference: a store maps a
    reference (a [positive]) to the contents of the tensor it names. *)

(** ** Forget-membership test *)

(** [(idx.unsqueeze(1) == forget_tensor).any(dim=1)]: one boolean per
    example of the batch, true when its identity index equals some entry of
    the forget tensor. *)
Definition which_is_in (idx forget_tensor : list Z) : list bool :=
  (fun i => existsb (Z.eqb i) forget_tensor) <$> idx.

(** ** Unlearning strategies *)

(** [torch.randint(1, C, shape)]: the outcome of the draw is an input,
    [draw k] being the entry at position [k]; the call raises when the range
    [[1, C)] is empty. *)
Definition randint (low high : Z) (shape : nat) (draw : nat -> Z) : option (list Z) :=
  if high <=? low then None else Some (draw <$> seq 0 shape).

Definition rand_label (m : list param) (image : list Image) (target : positive)
    (idx : list Z) (criterion : Output -> list Z -> list Q) (ld : loader)
    (draw : nat -> Z) (h : gmap positive (list Z))
    : option (Q * gmap positive (list Z)) :=
  let ds := ds ld in
  let forget_tensor := FORGET ds in
  let which_is_in := which_is_in idx forget_tensor in
  let C := Z.of_nat (length (classes ds)) in
  tgt ← h !! target;
  rand_targets ← randint 1 C (length tgt) draw;
  let rand_targets := zip_with (fun t r => rem64 (add64 t r) C) tgt rand_targets in
  sel ← masked_select which_is_in rand_targets;
  tgt' ← masked_put which_is_in tgt sel;
  let h' := <[target := tgt']> h in
  let output := forward m image in
  let loss := criterion output tgt' in
  Some (mean loss, h').

(** [loss[which_is_in] *= -1]: read the selected entries, scale them and
    write them back. *)
Definition masked_scale (mask : list bool) (xs : list Q) (c : Q) : option (list Q) :=
  sel ← masked_select mask xs;
  masked_put mask xs ((fun x => (x * c)%Q) <$> sel).

Definition grad_ascent (m : list param) (image : list Image) (target : positive)
    (idx : list Z) (criterion : Output -> list Z -> list Q) (ld : loader)
    (draw : nat -> Z) (h : gmap positive (list Z))
    : option (Q * gmap positive (list Z)) :=
  let output := forward m image in
  tgt ← h !! target;
  let loss := criterion output tgt in
  let ds := ds ld in
  let forget_tensor := FORGET ds in
  let which_is_in := which_is_in idx forget_tensor in
  loss ← masked_scale which_is_in loss (-1);
  Some (mean loss, h).

Definition grad_ascent_small (m : list param) (image : list Image) (target : positive)
    (idx : list Z) (criterion : Output -> list Z -> list Q) (ld : loader)
    (draw : nat -> Z) (h : gmap positive (list Z))
    : option (Q * gmap positive (list Z)) :=
  let output := forward m image in
  tgt ← h !! target;
  let loss := Qopp <$> criterion output tgt in
  Some (mean loss, h).

Definition retrain (m : list param) (image : list Image) (target : positive)
    (idx : list Z) (criterion : Output -> list Z -> list Q) (ld : loader)
    (draw : nat -> Z) (h : gmap positive (list Z))
    : option (Q * gmap positive (list Z)) :=
  let output := forward m image in
  tgt ← h !! target;
  let loss := criterion output tgt in
  Some (mean loss, h).

(** The signature shared by the four strategies. *)
Definition method_t : Type :=
  list param -> list Image -> positive -> list Z ->
  (Output -> list Z -> list Q) -> loader -> (nat -> Z) ->
  gmap positive (list Z) -> option (Q * gmap positive (list Z)).

(** ** Masked update loop *)

(** Automatic differentiation: [autograd f m k] is the gradient, with respect
    to the [k]-th parameter, of the loss computation [f] at the model [m]. *)
Variable autograd : (list param -> option Q) -> list param -> nat -> list Q.

Definition set_grad (p : param) (g : option (list Q)) : param :=
  {| p_name := p_name p; p_data := p_data p; p_grad := g |}.

(** [loss.backward()] adds the gradient to every parameter's buffer, or
    creates the buffer when there is none. *)
Definition accumulate (g : list Q) (p : param) : param :=
  set_grad p (Some (match p_grad p with
                    | None => g
                    | Some g0 => zip_with Qplus g0 g
                    end)).

Definition backward (loss : list param -> option Q) (m : list param) : list param :=
  imap (fun k p => accumulate (autograd loss m k) p) m.

(** [g *= mk] on flat tensors: the elementwise product, written into [g];
    operands of different sizes raise (broadcasting of a smaller mask is
    not modelled). *)
Definition mul_ (g mk : list Q) : option (list Q) :=
  if (length mk =? length g)%nat then Some (zip_with Qmult g mk) else None.

(** The body of [for name, param in model.named_parameters()]. *)
Definition mask_grad (mask : gmap string (list Q)) (p : param) : option param :=
  match mask !! p_name p with
  | Some mk =>
      g ← p_grad p;
      g' ← mul_ g mk;
      Some (set_grad p (Some g'))
  | None => Some p
  end.

Definition mask_gradients (USE_MASK : bool) (mask : gmap string (list Q))
    (m : list param) : option (list param) :=
  if USE_MASK then mapM (mask_grad mask) m else Some m.

(** [optimizer.step()] of plain SGD: [p <- p - lr * grad] for every
    parameter that has a gradient. *)
Definition sgd_param (LR : Q) (p : param) : param :=
  match p_grad p with
  | Some g =>
      {| p_name := p_name p;
         p_data := zip_with (fun d gi => (d - LR * gi)%Q) (p_data p) g;
         p_grad := p_grad p |}
  | None => p
  end.

Definition optimizer_step (LR : Q) (m : list param) : list param :=
  sgd_param LR <$> m.

Definition zero_grad (m : list param) : list param :=
  (fun p => set_grad p None) <$> m.

(** The reference under which the label tensor of the current batch lives;
    every batch is collated into fresh tensors, dropped after the
    iteration. *)
Definition target_loc : positive := 1%positive.

(** One iteration of [for data in tqdm(loader)]. *)
Definition unlearn_batch (method : method_t) (criterion : Output -> list Z -> list Q)
    (ld : loader) (USE_MASK : bool) (mask : gmap string (list Q)) (LR : Q)
    (m : list param) (data : batch) (draw : nat -> Z) : option (list param) :=
  let image := image data in
  let target := target_loc in
  let h : gmap positive (list Z) := {[ target := label data ]} in
  let idx := idx data in
  loss ← method m image target idx criterion ld draw h;
  let m := backward
             (fun m' => fst <$> method m' image target idx criterion ld draw h) m in
  m ← mask_gradients USE_MASK mask m;
  let m := optimizer_step LR m in
  Some (zero_grad m).

(** The batch loop of one epoch; [draws k] is the outcome of the random
    draws of the [k]-th iteration. *)
Fixpoint unlearn_batches (method : method_t) (criterion : Output -> list Z -> list Q)
    (ld : loader) (USE_MASK : bool) (mask : gmap string (list Q)) (LR : Q)
    (m : list param) (bs : list batch) (draws : nat -> nat -> Z) (k : nat)
    : option (list param) :=
  match bs with
  | [] => Some m
  | data :: bs' =>
      m ← unlearn_batch method criterion ld USE_MASK mask LR m data (draws k);
      unlearn_batches method criterion ld USE_MASK mask LR m bs' draws (S k)
  end.

Definition unlearn_epoch (method : method_t) (criterion : Output -> list Z -> list Q)
    (ld : loader) (USE_MASK : bool) (mask : gmap string (list Q)) (LR : Q)
    (m : list param) (draws : nat -> nat -> Z) : option (list param) :=
  unlearn_batches method criterion ld USE_MASK mask LR m (batches ld) draws 0.

(** ** Evaluator *)

(** [outputs.topk(k)]: for every example, the indices of its [k] largest
    scores. *)
Variable topk : Output -> nat -> list (list Z).

Definition count_true (bs : list bool) : nat := length (filter (fun b => b = true) bs).

(** [compute_topk] of [utils.py]. *)
Definition compute_topk (labels : list Z) (outputs : Output) (k : nat) : Z :=
  let indeces := topk outputs k in
  let labels_rep := (fun l => replicate k l) <$> labels in
  Z.of_nat (count_true (concat (zip_with (zip_with Z.eqb) labels_rep indeces))).

(** The body of the batch loop of [eval_unlearning], on the running
    accumulator [tot_acc] and the loss list of the split. *)
Definition eval_batch (m : list param) (criterion : Output -> list Z -> list Q)
    (st : Q * list Q) (data : batch) : Q * list Q :=
  let image := image data in
  let target := label data in
  let output := forward m image in
  let loss := criterion output target in
  let acc := compute_topk target output 1 in
  ((st.1 + inject_Z acc)%Q, st.2 ++ [mean loss]).

(** The loop over [zip(loaders, names)]; [tot_acc] is carried from one
    split to the next. Dividing by an empty dataset raises. *)
Fixpoint eval_splits (m : list param) (criterion : Output -> list Z -> list Q)
    (zipped : list (loader * string)) (tot_acc : Q)
    (accs : gmap string Q) (losses : gmap string (list Q))
    : option (gmap string Q * gmap string (list Q)) :=
  match zipped with
  | [] => Some (accs, losses)
  | (ld, name) :: rest =>
      let st := fold_left (eval_batch m criterion) (batches ld) (tot_acc, []) in
      let losses := <[name := st.2]> losses in
      match dataset_len ld with
      | O => None
      | S _ =>
          let tot_acc := (st.1 / inject_Z (Z.of_nat (dataset_len ld)))%Q in
          eval_splits m criterion rest tot_acc (<[name := tot_acc]> accs) losses
      end
  end.

Definition eval_unlearning (m : list param) (loaders : list loader)
    (names : list string) (criterion : Output -> list Z -> list Q)
    : option (gmap string Q * gmap string (list Q)) :=
  let tot_acc := 0%Q in
  eval_splits m criterion (zip loaders names) tot_acc ∅ ∅.

(** ** Membership-inference attacker *)

Inductive split_criterion := gini | entropy.

(** The scikit-learn collaborators: a fitted [RandomForestClassifier],
    [predict_proba(X)[:, 1]], [predict(X)] and [roc_auc_score]. *)
Variable Forest : Type.
Variable fit : Z -> split_criterion -> list Q -> list Q -> Forest.
Variable predict_proba1 : Forest -> list Q -> list Q.
Variable predict : Forest -> list Q -> list Q.
Variable roc_auc_score : list Q -> list Q -> Q.

(** [a > b] on floats. *)
Definition Qgtb (a b : Q) : bool := negb (Qle_bool a b).

(** The AUC and the forget-only accuracy of one grid point. *)
Definition mia_point (train_loss train_target test_loss test_target forget_losses : list Q)
    (n_est : Z) (criterion : split_criterion) : Q * Q :=
  let mia_model := fit n_est criterion train_loss train_target in
  let y_hat := predict_proba1 mia_model test_loss in
  let auc := (roc_auc_score test_target y_hat * 100)%Q in
  let y_hat := mean (predict mia_model forget_losses) in
  let acc := ((1 - y_hat) * 100)%Q in
  (auc, acc).

(** The body of the inner loop: the pair carried is [(best_auc, best_acc)]. *)
Definition mia_update (best : Q * Q) (point : Q * Q) : Q * Q :=
  let '(auc, acc) := point in
  if Qgtb acc best.2 then (auc, acc) else best.

Definition compute_basic_mia (retain_losses forget_losses val_losses test_losses : list Q)
    : Q * Q :=
  let train_loss := retain_losses ++ val_losses in
  let train_target :=
    replicate (length retain_losses) 1%Q ++ replicate (length val_losses) 0%Q in
  let test_loss := forget_losses ++ test_losses in
  let test_target :=
    replicate (length forget_losses) 1%Q ++ replicate (length test_losses) 0%Q in
  let best_auc := 0%Q in
  let best_acc := 0%Q in
  fold_left
    (fun best n_est =>
       fold_left
         (fun best criterion =>
            mia_update best
              (mia_point train_loss train_target test_loss test_target
                 forget_losses n_est criterion))
         [gini; entropy] best)
    [20; 50; 100] (best_auc, best_acc).

(** ** Experiment driver *)

(** The five loaders returned by [get_dataloaders]. *)
Record loaders := {
  train_loader : loader;
  val_loader : loader;
  test_loader : loader;
  forget_loader : loader;
  retain_loader : loader
}.

(** The entries of [settings] the loop reads, and the [LOG] flag. *)
Record settings := {
  USE_MASK : bool;
  LR : Q;
  EPOCHS : nat;
  METHOD : string;
  LOG : bool
}.

(** The evaluation block of the driver: [eval_unlearning] on the four
    splits, then [accs["forget"] = 1 - accs["forget"]]. *)
Definition evaluate (m : list param) (lds : loaders)
    (criterion : Output -> list Z -> list Q)
    : option (gmap string Q * gmap string (list Q)) :=
  r ← eval_unlearning m
        [test_loader lds; forget_loader lds; retain_loader lds; val_loader lds]
        ["test"; "forget"; "retain"; "val"]%string
        criterion;
  let accs := r.1 in
  let losses := r.2 in
  a ← accs !! "forget"%string;
  let accs := <["forget"%string := (1 - a)%Q]> accs in
  Some (accs, losses).

(** The attack block: [compute_basic_mia] on the four loss lists. *)
Definition compute_mia (losses : gmap string (list Q)) : option (Q * Q) :=
  retain_losses ← losses !! "retain"%string;
  forget_losses ← losses !! "forget"%string;
  val_losses ← losses !! "val"%string;
  test_losses ← losses !! "test"%string;
  Some (compute_basic_mia retain_losses forget_losses val_losses test_losses).

(** The dispatch on [METHOD]; with any other string [method] and [loader]
    stay unbound and their first use raises. *)
Definition select_method (METHOD : string) (lds : loaders) : option (method_t * loader) :=
  if String.eqb METHOD "rl" then Some (rand_label, train_loader lds)
  else if String.eqb METHOD "ga" then Some (grad_ascent, train_loader lds)
  else if String.eqb METHOD "ga_small" then Some (grad_ascent_small, forget_loader lds)
  else if String.eqb METHOD "retrain" then Some (retrain, retain_loader lds)
  else None.

(** The variables of the driver that live across epochs, and what was sent
    to [wandb.log]. *)
Record run_state := {
  cur_model : list param;
  best_test_acc : Q;
  best_test : gmap string Q;
  best_forget_acc : Q;
  best_forget : gmap string Q;
  wandb_log : list (gmap string Q)
}.

(** The metrics of one epoch, after training and evaluation. *)
Record metrics := {
  test_acc : Q;
  forget_acc : Q;
  retain_acc : Q;
  val_acc : Q;
  mia_auc : Q;
  mia_acc : Q;
  accs_of : gmap string Q
}.

(** Evaluation, attack and the reads of the four accuracies. *)
Definition measure (m : list param) (lds : loaders)
    (criterion : Output -> list Z -> list Q) : option metrics :=
  r ← evaluate m lds criterion;
  let accs := r.1 in
  mia ← compute_mia r.2;
  test_acc ← accs !! "test"%string;
  forget_acc ← accs !! "forget"%string;
  retain_acc ← accs !! "retain"%string;
  val_acc ← accs !! "val"%string;
  Some {| test_acc := test_acc; forget_acc := forget_acc;
          retain_acc := retain_acc; val_acc := val_acc;
          mia_auc := mia.1; mia_acc := mia.2; accs_of := accs |}.

Definition log_entry (pre : string) (x : metrics) : gmap string Q :=
  <[(pre +:+ "test")%string := test_acc x]>
  (<[(pre +:+ "forget")%string := forget_acc x]>
  (<[(pre +:+ "retain")%string := retain_acc x]>
  (<[(pre +:+ "val")%string := val_acc x]>
  (<[(pre +:+ "mia_auc")%string := mia_auc x]>
  (<[(pre +:+ "mia_acc")%string := mia_acc x]> ∅))))).

(** The two [if]s that track the best epoch. *)
Definition track_best (st : run_state) (m : list param) (x : metrics)
    (log : list (gmap string Q)) : run_state :=
  let bt :=
    if Qgtb (test_acc x) (best_test_acc st)
    then (test_acc x, accs_of x) else (best_test_acc st, best_test st) in
  let bf :=
    if Qgtb (forget_acc x) (best_forget_acc st)
    then (forget_acc x, accs_of x) else (best_forget_acc st, best_forget st) in
  {| cur_model := m;
     best_test_acc := bt.1; best_test := bt.2;
     best_forget_acc := bf.1; best_forget := bf.2;
     wandb_log := log |}.

(** The body of [for epoch in range(EPOCHS)]. *)
Definition epoch_body (cfg : settings) (lds : loaders)
    (criterion : Output -> list Z -> list Q) (mask : gmap string (list Q))
    (draws : nat -> nat -> Z) (st : run_state) : option run_state :=
  sel ← select_method (METHOD cfg) lds;
  m ← unlearn_epoch sel.1 criterion sel.2 (USE_MASK cfg) mask (LR cfg)
        (cur_model st) draws;
  x ← measure m lds criterion;
  let log :=
    if LOG cfg then wandb_log st ++ [log_entry "" x] else wandb_log st in
  Some (track_best st m x log).

(** The first [n] epochs; [rng e] gives the random draws of epoch [e]. *)
Fixpoint run_epochs (n : nat) (cfg : settings) (lds : loaders)
    (criterion : Output -> list Z -> list Q) (mask : gmap string (list Q))
    (rng : nat -> nat -> nat -> Z) (st : run_state) : option run_state :=
  match n with
  | O => Some st
  | S n' =>
      st ← run_epochs n' cfg lds criterion mask rng st;
      epoch_body cfg lds criterion mask (rng n') st
  end.

(** One experiment, from the loaded model and the computed mask: the
    initial evaluation, the initialisation of the trackers, the epochs. *)
Definition run_experiment (cfg : settings) (lds : loaders)
    (criterion : Output -> list Z -> list Q) (mask : gmap string (list Q))
    (rng : nat -> nat -> nat -> Z) (m : list param) : option run_state :=
  x ← measure m lds criterion;
  let best_test_acc := 0%Q in
  let best_test : gmap string Q := ∅ in
  let best_forget_acc := 100%Q in
  let best_forget : gmap string Q := ∅ in
  run_epochs (EPOCHS cfg) cfg lds criterion mask rng
    {| cur_model := m;
       best_test_acc := best_test_acc; best_test := best_test;
       best_forget_acc := best_forget_acc; best_forget := best_forget;
       wandb_log := if LOG cfg then [log_entry "base_" x] else [] |}.

End Engine.

Arguments Build_batch {Image} _ _ _.
Arguments image {Image} _.
Arguments label {Image} _.
Arguments idx {Image} _.
Arguments Build_loader {Image} _ _ _.
Arguments batches {Image} _.
Arguments dataset_len {Image} _.
Arguments ds {Image} _.
Arguments Build_loaders {Image} _ _ _ _ _.
Arguments train_loader {Image} _.
Arguments val_loader {Image} _.
Arguments test_loader {Image} _.
Arguments forget_loader {Image} _.
Arguments retain_loader {Image} _.
Arguments rand_label {Image Output} forward m image target idx criterion ld draw h.
Arguments grad_ascent {Image Output} forward m image target idx criterion ld draw h.
Arguments grad_ascent_small {Image Output} forward m image target idx criterion ld draw h.
Arguments retrain {Image Output} forward m image target idx criterion ld draw h.
Arguments unlearn_batch {Image Output} autograd method criterion ld USE_MASK mask LR m data draw.
Arguments unlearn_batches {Image Output} autograd method criterion ld USE_MASK mask LR m bs draws k.
Arguments unlearn_epoch {Image Output} autograd method criterion ld USE_MASK mask LR m draws.
Arguments compute_topk {Output} topk labels outputs k.
Arguments eval_batch {Image Output} forward topk m criterion st data.
Arguments eval_splits {Image Output} forward topk m criterion zipped tot_acc accs losses.
Arguments eval_unlearning {Image Output} forward topk m loaders names criterion.
Arguments mia_point {Forest} fit predict_proba1 predict roc_auc_score
  train_loss train_target test_loss test_target forget_losses n_est criterion.
Arguments compute_basic_mia {Forest} fit predict_proba1 predict roc_auc_score
  retain_losses forget_losses val_losses test_losses.
Arguments compute_mia {Forest} fit predict_proba1 predict roc_auc_score losses.
Arguments evaluate {Image Output} forward topk m lds criterion.
Arguments select_method {Image Output} forward METHOD lds.
Arguments measure {Image Output} forward topk {Forest} fit predict_proba1 predict
  roc_auc_score m lds criterion.
Arguments epoch_body {Image Output} forward autograd topk {Forest} fit predict_proba1
  predict roc_auc_score cfg lds criterion mask draws st.
Arguments run_epochs {Image Output} forward autograd topk {Forest} fit predict_proba1
  predict roc_auc_score n cfg lds criterion mask rng st.
Arguments run_experiment {Image Output} forward autograd topk {Forest} fit predict_proba1
  predict roc_auc_score cfg lds criterion mask rng m.

(** ** The training script [trainloop.py]

    The optimizer (SGD with momentum and weight decay) and the learning-rate
    scheduler are opaque: their state is a value of [Optim], a step of the
    optimizer reads the gradient buffers and returns the new parameters, a
    step of the scheduler reads the validation accuracy. The criterion of
    this script is mean-reduced: it maps an output and a label tensor to one
    number. The forward pass in training mode may differ from the one in
    evaluation mode. *)

Section TrainLoop.

Variables Image Output Optim : Type.
Variable forward_train : list param -> list Image -> Output.
Variable forward : list param -> list Image -> Output.
Variable autograd : (list param -> option Q) -> list param -> nat -> list Q.
Variable topk : Output -> nat -> list (list Z).
Variable optim_step : Optim -> list param -> Optim * list param.
Variable scheduler_step : Q -> Optim -> Optim.

(** The body of the batch loop of [train_loop], on the model, the optimizer
    and the list [losses]. *)
Definition train_batch (criterion : Output -> list Z -> Q)
    (st : list param * Optim * list Q) (data : batch Image)
    : list param * Optim * list Q :=
  let image := image data in
  let label := label data in
  let m := zero_grad st.1.1 in
  let loss := criterion (forward_train m image) label in
  let losses := st.2 ++ [loss] in
  let m := backward autograd
             (fun m' => Some (criterion (forward_train m' image) label)) m in
  let r := optim_step st.1.2 m in
  (r.2, r.1, losses).

(** [train_loop]: the mean of the batch losses, with the model and the
    optimizer it leaves. *)
Definition train_loop (m : list param) (train_loader : loader Image)
    (criterion : Output -> list Z -> Q) (optimizer : Optim)
    : Q * (list param * Optim) :=
  let losses : list Q := [] in
  let st := fold_left (train_batch criterion) (batches train_loader)
              (m, optimizer, losses) in
  (mean st.2, st.1).

(** The body of the batch loop of [test_loop], on [losses], [top1] and
    [top5]. *)
Definition test_batch (m : list param) (criterion : Output -> list Z -> Q)
    (st : list Q * Z * Z) (data : batch Image) : list Q * Z * Z :=
  let image := image data in
  let labels := label data in
  let output := forward m image in
  let loss := criterion output labels in
  (st.1.1 ++ [loss],
   st.1.2 + compute_topk topk labels output 1,
   st.2 + compute_topk topk labels output 5).

(** [test_loop]: mean loss, top-1 and top-5 accuracy; dividing by an empty
    dataset raises. *)
Definition test_loop (m : list param) (ld : loader Image)
    (criterion : Output -> list Z -> Q) : option (Q * Q * Q) :=
  let st := fold_left (test_batch m criterion) (batches ld) ([], 0, 0) in
  match dataset_len ld with
  | O => None
  | S _ =>
      let top1_acc := (inject_Z st.1.2 / inject_Z (Z.of_nat (dataset_len ld)))%Q in
      let top5_acc := (inject_Z st.2 / inject_Z (Z.of_nat (dataset_len ld)))%Q in
      Some (mean st.1.1, top1_acc, top5_acc)
  end.

(** [model.state_dict()]: the parameters by name, without their gradient
    buffers. *)
Definition state_dict (m : list param) : list (string * list Q) :=
  (fun p => (p_name p, p_data p)) <$> m.

(** The variables of the training loop of the script: the model, the
    optimizer with its scheduler, [best_acc], [pat], the checkpoint file
    (absent until the first save) and the number of epochs started. *)
Record fit_state := {
  fit_model : list param;
  fit_optim : Optim;
  fit_best_acc : Q;
  fit_pat : Z;
  fit_saved : option (list (string * list Q) * Optim);
  fit_epochs_run : nat
}.

(** The body of [for epoch in range(EPOCHS)]; the boolean tells whether
    [break] was reached. *)
Definition fit_epoch (PAT : Z) (retain_loader val_loader forget_loader : loader Image)
    (criterion : Output -> list Z -> Q) (st : fit_state) : option (fit_state * bool) :=
  let tr := train_loop (fit_model st) retain_loader criterion (fit_optim st) in
  let m := tr.2.1 in
  v ← test_loop m val_loader criterion;
  f ← test_loop m forget_loader criterion;
  let val_top1 := v.1.2 in
  let opt := scheduler_step val_top1 tr.2.2 in
  if Qgtb val_top1 (fit_best_acc st) then
    Some ({| fit_model := m; fit_optim := opt;
             fit_best_acc := val_top1; fit_pat := PAT;
             fit_saved := Some (state_dict m, opt);
             fit_epochs_run := S (fit_epochs_run st) |}, false)
  else
    let pat := fit_pat st - 1 in
    Some ({| fit_model := m; fit_optim := opt;
             fit_best_acc := fit_best_acc st; fit_pat := pat;
             fit_saved := fit_saved st;
             fit_epochs_run := S (fit_epochs_run st) |}, pat =? 0).

Fixpoint fit_epochs (n : nat) (PAT : Z)
    (retain_loader val_loader forget_loader : loader Image)
    (criterion : Output -> list Z -> Q) (st : fit_state) : option fit_state :=
  match n with
  | O => Some st
  | S n' =>
      match fit_epoch PAT retain_loader val_loader forget_loader criterion st with
      | Some (st', true) => Some st'
      | Some (st', false) =>
          fit_epochs n' PAT retain_loader val_loader forget_loader criterion st'
      | None => None
      end
  end.

(** The training of one model, from the fresh model and optimizer to the
    end of the epoch loop. *)
Definition fit_model_for (EPOCHS : nat) (PAT : Z)
    (retain_loader val_loader forget_loader : loader Image)
    (criterion : Output -> list Z -> Q) (m : list param) (optimizer : Optim)
    : option fit_state :=
  let best_acc := 0%Q in
  let pat := PAT in
  fit_epochs EPOCHS PAT retain_loader val_loader forget_loader criterion
    {| fit_model := m; fit_optim := optimizer; fit_best_acc := best_acc;
       fit_pat := pat; fit_saved := None; fit_epochs_run := O |}.

End TrainLoop.

Arguments train_batch {Image Output Optim} forward_train autograd optim_step criterion st data.
Arguments train_loop {Image Output Optim} forward_train autograd optim_step m
  train_loader criterion optimizer.
Arguments test_batch {Image Output} forward topk m criterion st data.
Arguments test_loop {Image Output} forward topk m ld criterion.
Arguments Build_fit_state {Optim} _ _ _ _ _ _.
Arguments fit_model {Optim} _.
Arguments fit_optim {Optim} _.
Arguments fit_best_acc {Optim} _.
Arguments fit_pat {Optim} _.
Arguments fit_saved {Optim} _.
Arguments fit_epochs_run {Optim} _.
Arguments fit_epoch {Image Output Optim} forward_train forward autograd topk optim_step
  scheduler_step PAT retain_loader val_loader forget_loader criterion st.
Arguments fit_epochs {Image Output Optim} forward_train forward autograd topk optim_step
  scheduler_step n PAT retain_loader val_loader forget_loader criterion st.
Arguments fit_model_for {Image Output Optim} forward_train forward autograd topk
  optim_step scheduler_step EPOCHS PAT retain_loader val_loader forget_loader
  criterion m optimizer.

(** ** The grid of the attacker, and the quantities the specification names *)

(** The grid points in the order the two nested loops visit them. *)
Definition mia_grid : list (Z * split_criterion) :=
  n_est ← [20; 50; 100]; criterion ← [gini; entropy]; [(n_est, criterion)].

(** Top-1 accuracy of a split as the specification defines it: the number of
    examples whose highest-scoring class is the true label, over the split
    size. *)
Definition top1_accuracy {Image Output} (forward : list param -> list Image -> Output)
    (topk : Output -> nat -> list (list Z)) (m : list param) (ld : loader Image) : Q :=
  let correct :=
    fold_left Z.add
      ((fun b => compute_topk topk (label b) (forward m (image b)) 1) <$> batches ld)
      0 in
  (inject_Z correct / inject_Z (Z.of_nat (dataset_len ld)))%Q.

(** The number of examples a loader yields in one pass. *)
Definition examples {Image} (ld : loader Image) : nat :=
  length (concat (label <$> batches ld)).

(** [torch.where(mask, ys, xs)]: entry by entry, [ys] where the mask holds
    and [xs] elsewhere. *)
Definition where_ {A} (mask : list bool) (ys xs : list A) : list A :=
  zip_with (fun b p => if b : bool then p.1 else p.2) mask (zip ys xs).

(** The class count [len(ds.classes)] read by [rand_label]. *)
Definition nclasses {Image} (ld : loader Image) : Z :=
  Z.of_nat (length (classes (ds ld))).

(** The labels [rand_label] leaves in the tensor it was given, entry by
    entry. *)
Definition relabelled {Image} (idx : list Z) (ld : loader Image) (draw : nat -> Z)
    (tgt : list Z) : list Z :=
  where_ (which_is_in idx (FORGET (ds ld)))
    (zip_with (fun t r => rem64 (add64 t r) (nclasses ld))
       tgt (draw <$> seq 0 (length tgt)))
    tgt.

(** The signed losses [grad_ascent] averages, entry by entry. *)
Definition signed_losses {Image} (idx : list Z) (ld : loader Image) (raw : list Q)
    : list Q :=
  where_ (which_is_in idx (FORGET (ds ld))) (Qopp <$> raw) raw.

(** The entry [eval_unlearning] appends for one batch: the mean of the
    per-example losses of the batch. *)
Definition batch_loss {Image Output} (forward : list param -> list Image -> Output)
    (m : list param) (criterion : Output -> list Z -> list Q) (data : batch Image) : Q :=
  mean (criterion (forward m (image data)) (label data)).

(** The pairs [(auc, acc)] of the grid points, in the order the attacker
    visits them. *)
Definition mia_points {Forest} (fit : Z -> split_criterion -> list Q -> list Q -> Forest)
    (predict_proba1 predict : Forest -> list Q -> list Q)
    (roc_auc_score : list Q -> list Q -> Q)
    (retain_losses forget_losses val_losses test_losses : list Q) : list (Q * Q) :=
  (fun g : Z * split_criterion =>
     mia_point fit predict_proba1 predict roc_auc_score
       (retain_losses ++ val_losses)
       (replicate (length retain_losses) 1%Q ++ replicate (length val_losses) 0%Q)
       (forget_losses ++ test_losses)
       (replicate (length forget_losses) 1%Q ++ replicate (length test_losses) 0%Q)
       forget_losses g.1 g.2) <$> mia_grid.

(** The number of examples of a split whose highest-scoring class is the
    true label. *)
Definition top1_correct {Image Output} (forward : list param -> list Image -> Output)
    (topk : Output -> nat -> list (list Z)) (m : list param) (ld : loader Image) : Z :=
  fold_left Z.add
    ((fun b => compute_topk topk (label b) (forward m (image b)) 1) <$> batches ld) 0.

(** ** A small concrete instance

    Images are integers, the network answers with the image itself as the
    predicted class, and the loss is 0 for a hit and 1 for a miss. *)
Module Toy.

Definition forward (m : list param) (images : list Z) : list Z := images.

Definition topk (out : list Z) (k : nat) : list (list Z) :=
  (fun c => (fun j => c + Z.of_nat j) <$> seq 0 k) <$> out.

Definition criterion (out : list Z) (labels : list Z) : list Q :=
  zip_with (fun o l => if o =? l then 0%Q else 1%Q) out labels.

(** Every gradient entry is 1, with the shape of its parameter. *)
Definition autograd (f : list param -> option Q) (m : list param) (k : nat) : list Q :=
  match m !! k with
  | Some p => (fun _ => 1%Q) <$> p_data p
  | None => []
  end.

(** A classifier that remembers its ensemble size and its training labels:
    with 20 trees it answers with the last training label, otherwise with
    the first one; its score is the ensemble size over 100. *)
Definition fit (n_est : Z) (c : split_criterion) (X y : list Q) : Z * list Q := (n_est, y).

Definition predict (f : Z * list Q) (X : list Q) : list Q :=
  match f.2 with
  | [] => []
  | y0 :: _ => (fun _ => if f.1 =? 20 then List.last f.2 y0 else y0) <$> X
  end.

Definition predict_proba1 (f : Z * list Q) (X : list Q) : list Q :=
  (fun _ => (inject_Z f.1 / 100)%Q) <$> X.

Definition roc_auc_score (y_true y_score : list Q) : Q := hd 0%Q y_score.

Definition dset : dataset := {| FORGET := [3; 7]; classes := ["a"; "b"; "c"]%string |}.

(** A split of one batch. *)
Definition split (images labels ids : list Z) : loader Z :=
  {| batches := [ {| image := images; label := labels; idx := ids |} ];
     dataset_len := length labels; ds := dset |}.

(** Four splits of one example each, every one classified correctly. *)
Definition all_right : loaders Z :=
  {| train_loader := split [0; 1] [0; 1] [3; 4];
     val_loader := split [2] [2] [9];
     test_loader := split [1] [1] [8];
     forget_loader := split [0] [0] [3];
     retain_loader := split [1] [1] [4] |}.

(** The test example is classified correctly, the forget example is not. *)
Definition forget_missed : loaders Z :=
  {| train_loader := split [0; 1] [0; 1] [3; 4];
     val_loader := split [2] [2] [9];
     test_loader := split [1] [1] [8];
     forget_loader := split [2] [0] [3];
     retain_loader := split [1] [1] [4] |}.

Definition net : list param :=
  [ {| p_name := "fc.weight"; p_data := [1; 2]%Q; p_grad := None |};
    {| p_name := "fc.bias"; p_data := [3]%Q; p_grad := None |} ].

Definition ones_mask : gmap string (list Q) :=
  <["fc.weight"%string := [1; 1]%Q]> ∅.

Definition cfg : settings :=
  {| USE_MASK := true; LR := (1 # 10)%Q; EPOCHS := 2; METHOD := "rl"; LOG := true |}.

Definition rng (epoch batch_no position : nat) : Z := 1.

(** A training batch of two examples, the first one to forget, with its
    label tensor in a store. *)
Definition train : loader Z := split [0; 1] [0; 1] [3; 4].

Definition store : gmap positive (list Z) := {[ 1%positive := [0; 1] ]}.

Definition draw (position : nat) : Z := 1.

(** The mean-reduced 0-1 loss, an optimizer without state that takes a plain
    SGD step of rate 1/10, and a scheduler that does nothing. *)
Definition mean_criterion (out : list Z) (labels : list Z) : Q :=
  mean (criterion out labels).

Definition optim_step (opt : unit) (m : list param) : unit * list param :=
  (opt, optimizer_step (1 # 10)%Q m).

Definition sched_step (val_top1 : Q) (opt : unit) : unit := opt.

(** A loader on a dataset with a single class, a mask that closes the first
    entry of the weight, and a score function that always answers 1/2. *)
Definition single : loader Z :=
  {| batches := [ {| image := [0]; label := [0]; idx := [4] |} ];
     dataset_len := 1;
     ds := {| FORGET := [3; 7]; classes := ["a"]%string |} |}.

Definition half_mask : gmap string (list Q) :=
  <["fc.weight"%string := [0; 1]%Q]> ∅.

Definition half_auc (y_true y_score : list Q) : Q := (1 # 2)%Q.

End Toy.

(** * Properties *)

(** ** Masked reads and writes *)

Section MaskedOps.
Context {A : Type}.

(** Reading through a mask and writing the transformed entries back through
    the same mask is an entry-wise choice. *)
Lemma masked_select_put (f : A -> A) (mask : list bool) :
  forall xs ys : list A,
    length ys = length mask -> length xs = length mask ->
    exists sel, masked_select mask ys = Some sel /\
                masked_put mask xs (f <$> sel) = Some (where_ mask (f <$> ys) xs).
Proof.
  induction mask as [|b mask IH]; intros [|x xs] [|y ys] Hy Hx;
    simplify_eq/=; [by exists [] |].
  destruct (IH xs ys) as (sel & Hs & Hp); [done .. |].
  rewrite Hs. csimpl. destruct b; eexists; (split; [done |]); csimpl.
  - by rewrite Hp.
  - by rewrite Hp.
Qed.

Lemma length_where_ (mask : list bool) (ys xs : list A) :
  length ys = length mask -> length xs = length mask ->
  length (where_ mask ys xs) = length xs.
Proof.
  intros Hy Hx. unfold where_.
  rewrite length_zip_with_r_eq; rewrite length_zip_with_l_eq; congruence.
Qed.

Lemma lookup_where_ (mask : list bool) (ys xs : list A) (k : nat) (b : bool) (y x : A) :
  mask !! k = Some b -> ys !! k = Some y -> xs !! k = Some x ->
  where_ mask ys xs !! k = Some (if b then y else x).
Proof.
  intros Hb Hy Hx. unfold where_. rewrite lookup_zip_with, Hb. simpl.
  rewrite lookup_zip_with, Hy. simpl. by rewrite Hx.
Qed.

End MaskedOps.

(** ** Forget-membership *)

Lemma existsb_eqb_elem_of (i : Z) (l : list Z) :
  existsb (Z.eqb i) l = bool_decide (i ∈ l).
Proof.
  induction l as [|j l IH]; cbn [existsb].
  - rewrite bool_decide_eq_false_2; [done |]. by intros ?%elem_of_nil.
  - rewrite IH. destruct (Z.eqb_spec i j) as [->|Hne]; cbn [orb].
    + rewrite bool_decide_eq_true_2; [done |]. by left.
    + apply bool_decide_ext. rewrite elem_of_cons. split; [auto | by intros [?|?]].
Qed.

Lemma lookup_which_is_in (idx forget_tensor : list Z) (k : nat) (i : Z) :
  idx !! k = Some i ->
  which_is_in idx forget_tensor !! k = Some (bool_decide (i ∈ forget_tensor)).
Proof.
  intros Hi. unfold which_is_in. rewrite list_lookup_fmap, Hi. simpl.
  by rewrite existsb_eqb_elem_of.
Qed.

Lemma length_which_is_in (idx forget_tensor : list Z) :
  length (which_is_in idx forget_tensor) = length idx.
Proof. unfold which_is_in. by rewrite length_fmap. Qed.

(** C6. The forget-membership mask has one entry per example of the batch,
    and the entry of an example is true exactly when its identity index is
    equal to an element of the forget index set; for the forget set {3, 7}
    and the batch indices [1, 3, 5, 7] the mask is
    [False, True, False, True]. *)
Theorem which_is_in_exact_membership :
  (forall idx forget_tensor : list Z,
      which_is_in idx forget_tensor
      = (fun i => bool_decide (i ∈ forget_tensor)) <$> idx) /\
  (forall (idx forget_tensor : list Z) (k : nat) (i : Z),
      idx !! k = Some i ->
      (which_is_in idx forget_tensor !! k = Some true <->
       exists j : nat, forget_tensor !! j = Some i)) /\
  which_is_in [1; 3; 5; 7] [3; 7] = [false; true; false; true].
Proof.
  split; [| split].
  - intros idx forget_tensor. unfold which_is_in.
    apply list_fmap_ext. intros _ i _. apply existsb_eqb_elem_of.
  - intros idx forget_tensor k i Hi.
    rewrite (lookup_which_is_in _ _ _ _ Hi), <- list_elem_of_lookup.
    split.
    + intros [= Hb]. by apply bool_decide_eq_true in Hb.
    + intros Hin. f_equal. by apply bool_decide_eq_true.
  - reflexivity.
Qed.

(** ** Label arithmetic of [rand_label] *)

Lemma wrap64_small (z : Z) : - 2 ^ 63 <= z < 2 ^ 63 -> wrap64 z = z.
Proof. intros Hz. unfold wrap64. rewrite Z.mod_small; lia. Qed.

(** A shift by [r], with [1 <= r < C], never lands on the label it started
    from. *)
Lemma shifted_label_differs (t r C : Z) :
  1 <= r < C -> C <= 2 ^ 62 -> rem64 (add64 t r) C <> t.
Proof.
  intros Hr HC. unfold rem64, add64.
  destruct (decide (0 <= t < C)) as [Ht|Ht].
  - rewrite wrap64_small by lia.
    destruct (decide (t + r < C)) as [Hlt|Hge].
    + rewrite Z.mod_small; lia.
    + replace (t + r) with (t + r - C + 1 * C) by lia.
      rewrite Z.mod_add, Z.mod_small; lia.
  - pose proof (Z.mod_pos_bound (wrap64 (t + r)) C). lia.
Qed.

(** ** Strategies *)

Section Strategies.
Context {Image Output : Type} (forward : list param -> list Image -> Output).

Lemma rand_label_run (m : list param) (image : list Image) (target : positive)
    (idx : list Z) (criterion : Output -> list Z -> list Q) (ld : loader Image)
    (draw : nat -> Z) (h : gmap positive (list Z)) (tgt : list Z) :
  h !! target = Some tgt ->
  length idx = length tgt ->
  1 < nclasses ld ->
  rand_label forward m image target idx criterion ld draw h
  = Some (mean (criterion (forward m image) (relabelled idx ld draw tgt)),
          <[target := relabelled idx ld draw tgt]> h).
Proof.
  intros Hh Hlen HC. unfold rand_label, randint. fold (nclasses ld).
  rewrite Hh. csimpl.
  destruct (Z.leb_spec (nclasses ld) 1) as [|_]; [lia |].
  csimpl.
  edestruct (masked_select_put (A := Z) id (which_is_in idx (FORGET (ds ld))) tgt)
    as (sel & Hs & Hp); [| | rewrite Hs; csimpl].
  - rewrite length_which_is_in.
    rewrite length_zip_with_l_eq; [done |]. by rewrite length_fmap, length_seq.
  - by rewrite length_which_is_in.
  - rewrite !list_fmap_id in Hp. rewrite Hp. reflexivity.
Qed.

Lemma length_relabelled (idx : list Z) (ld : loader Image) (draw : nat -> Z)
    (tgt : list Z) :
  length idx = length tgt -> length (relabelled idx ld draw tgt) = length tgt.
Proof.
  intros Hlen. unfold relabelled. apply length_where_.
  - rewrite length_which_is_in.
    rewrite length_zip_with_l_eq; [done |]. by rewrite length_fmap, length_seq.
  - by rewrite length_which_is_in.
Qed.

Lemma lookup_relabelled (idx : list Z) (ld : loader Image) (draw : nat -> Z)
    (tgt : list Z) (k : nat) (i t : Z) :
  idx !! k = Some i -> tgt !! k = Some t ->
  relabelled idx ld draw tgt !! k
  = Some (if bool_decide (i ∈ FORGET (ds ld))
          then rem64 (add64 t (draw k)) (nclasses ld) else t).
Proof.
  intros Hi Ht. unfold relabelled.
  apply lookup_where_; [by apply lookup_which_is_in | | done].
  rewrite lookup_zip_with, Ht. csimpl.
  rewrite list_lookup_fmap, lookup_seq_lt by (by eapply lookup_lt_Some).
  done.
Qed.

(** C4. Under [rand_label], whatever the draws [r] in [[1, C)], the label
    left for an example whose identity index is in the forget set differs
    from its original label, and the label of any other example is the
    original one. *)
Theorem rand_label_forget_labels_differ (m : list param) (image : list Image)
    (target : positive) (idx : list Z) (criterion : Output -> list Z -> list Q)
    (ld : loader Image) (draw : nat -> Z) (h : gmap positive (list Z))
    (tgt : list Z) :
  h !! target = Some tgt ->
  length idx = length tgt ->
  (forall k : nat, 1 <= draw k < Z.of_nat (length (classes (ds ld)))) ->
  Z.of_nat (length (classes (ds ld))) <= 2 ^ 62 ->
  exists (loss : Q) (h' : gmap positive (list Z)) (tgt' : list Z),
    rand_label forward m image target idx criterion ld draw h = Some (loss, h') /\
    h' !! target = Some tgt' /\
    length tgt' = length tgt /\
    forall (k : nat) (i t : Z),
      idx !! k = Some i -> tgt !! k = Some t ->
      exists t' : Z,
        tgt' !! k = Some t' /\
        (i ∈ FORGET (ds ld) -> t' <> t) /\
        (i ∉ FORGET (ds ld) -> t' = t).
Proof.
  intros Hh Hlen Hdraw HC.
  exists (mean (criterion (forward m image) (relabelled idx ld draw tgt))),
    (<[target := relabelled idx ld draw tgt]> h), (relabelled idx ld draw tgt).
  split; [| split; [| split]].
  - apply rand_label_run; [done .. |]. unfold nclasses. specialize (Hdraw O). lia.
  - apply lookup_insert_eq.
  - by apply length_relabelled.
  - intros k i t Hi Ht. eexists. split; [by apply lookup_relabelled |].
    case_bool_decide as Hin; split; intros Hin'; try done.
    by apply shifted_label_differs.
Qed.

(** C10. [rand_label] writes into the label tensor it is given: after the
    call the tensor named by [target] holds, for every example whose
    identity index is in the forget set, the replacement label
    [(label + r) % C] and, for every other example, its original label; no
    other tensor of the store changes, and the loss returned is the one
    against the rewritten labels. *)
Theorem rand_label_mutates_target (m : list param) (image : list Image)
    (target : positive) (idx : list Z) (criterion : Output -> list Z -> list Q)
    (ld : loader Image) (draw : nat -> Z) (h : gmap positive (list Z))
    (tgt : list Z) :
  h !! target = Some tgt ->
  length idx = length tgt ->
  1 < Z.of_nat (length (classes (ds ld))) ->
  exists (h' : gmap positive (list Z)) (tgt' : list Z),
    rand_label forward m image target idx criterion ld draw h
    = Some (mean (criterion (forward m image) tgt'), h') /\
    h' !! target = Some tgt' /\
    (forall l : positive, l <> target -> h' !! l = h !! l) /\
    length tgt' = length tgt /\
    forall (k : nat) (i t : Z),
      idx !! k = Some i -> tgt !! k = Some t ->
      tgt' !! k
      = Some (if bool_decide (i ∈ FORGET (ds ld))
              then rem64 (add64 t (draw k)) (Z.of_nat (length (classes (ds ld))))
              else t).
Proof.
  intros Hh Hlen HC.
  exists (<[target := relabelled idx ld draw tgt]> h), (relabelled idx ld draw tgt).
  split; [| split; [| split; [| split]]].
  - by apply rand_label_run.
  - apply lookup_insert_eq.
  - intros l Hl. by apply lookup_insert_ne.
  - by apply length_relabelled.
  - intros k i t Hi Ht. by apply lookup_relabelled.
Qed.

(** [x * -1] is the opposite of [x], as a fraction and not only as a
    number. *)
Lemma Qmult_m1_r (x : Q) : (x * -1 = - x)%Q.
Proof.
  destruct x as [n d]. unfold Qmult, Qopp. simpl. f_equal; [lia |].
  apply Pos.mul_1_r.
Qed.

Lemma grad_ascent_run (m : list param) (image : list Image) (target : positive)
    (idx : list Z) (criterion : Output -> list Z -> list Q) (ld : loader Image)
    (draw : nat -> Z) (h : gmap positive (list Z)) (tgt : list Z) :
  h !! target = Some tgt ->
  length idx = length (criterion (forward m image) tgt) ->
  grad_ascent forward m image target idx criterion ld draw h
  = Some (mean (signed_losses idx ld (criterion (forward m image) tgt)), h).
Proof.
  intros Hh Hlen. unfold grad_ascent, masked_scale. rewrite Hh. csimpl.
  edestruct (masked_select_put (fun x : Q => (x * -1)%Q)
               (which_is_in idx (FORGET (ds ld)))
               (criterion (forward m image) tgt) (criterion (forward m image) tgt))
    as (sel & Hs & Hp); [by rewrite length_which_is_in .. |].
  rewrite Hs. csimpl. rewrite Hp. csimpl. unfold signed_losses.
  assert (Heq : (fun x : Q => (x * -1)%Q) <$> criterion (forward m image) tgt
                = Qopp <$> criterion (forward m image) tgt)
    by (apply list_fmap_ext; intros _ x _; apply Qmult_m1_r).
  by rewrite Heq.
Qed.

(** C5. Under [grad_ascent] every example whose identity index is in the
    forget set contributes the opposite of its ordinary loss against the true
    label, every other example contributes its ordinary loss, and the value
    returned is the mean of these contributions. *)
Theorem grad_ascent_negates_forget_losses (m : list param) (image : list Image)
    (target : positive) (idx : list Z) (criterion : Output -> list Z -> list Q)
    (ld : loader Image) (draw : nat -> Z) (h : gmap positive (list Z))
    (tgt : list Z) :
  h !! target = Some tgt ->
  length idx = length (criterion (forward m image) tgt) ->
  exists contrib : list Q,
    grad_ascent forward m image target idx criterion ld draw h
    = Some (mean contrib, h) /\
    length contrib = length (criterion (forward m image) tgt) /\
    forall (k : nat) (i : Z) (l : Q),
      idx !! k = Some i -> criterion (forward m image) tgt !! k = Some l ->
      contrib !! k = Some (if bool_decide (i ∈ FORGET (ds ld)) then (- l)%Q else l).
Proof.
  intros Hh Hlen.
  exists (signed_losses idx ld (criterion (forward m image) tgt)).
  split; [by apply grad_ascent_run | split].
  - unfold signed_losses. apply length_where_.
    + by rewrite length_fmap, length_which_is_in.
    + by rewrite length_which_is_in.
  - intros k i l Hi Hl. unfold signed_losses.
    apply lookup_where_; [by apply lookup_which_is_in | | done].
    by rewrite list_lookup_fmap, Hl.
Qed.

End Strategies.

(** ** Masked update loop *)

(** Multiplying by 1 leaves a fraction as it is. *)
Lemma Qmult_1_r_eq (x : Q) : (x * 1)%Q = x.
Proof.
  destruct x as [n d]. unfold Qmult. simpl. f_equal; [lia |].
  apply Pos.mul_1_r.
Qed.

Lemma zip_with_Qmult_ones (g : list Q) :
  zip_with Qmult g (replicate (length g) 1%Q) = g.
Proof.
  induction g as [|x g IH]; [done |]. simpl. by rewrite Qmult_1_r_eq, IH.
Qed.

Lemma mul__ones (g : list Q) : mul_ g (replicate (length g) 1%Q) = Some g.
Proof.
  unfold mul_. rewrite length_replicate, Nat.eqb_refl.
  by rewrite zip_with_Qmult_ones.
Qed.

(** A parameter whose name is not a key of the mask keeps its gradient. *)
Lemma mask_grad_absent (mask : gmap string (list Q)) (p : param) :
  mask !! p_name p = None -> mask_grad mask p = Some p.
Proof. intros Hp. unfold mask_grad. by rewrite Hp. Qed.

Lemma mask_gradients_absent (mask : gmap string (list Q)) (m m' : list param)
    (k : nat) (p : param) :
  mask_gradients true mask m = Some m' ->
  m !! k = Some p -> mask !! p_name p = None -> m' !! k = Some p.
Proof.
  unfold mask_gradients. intros Hm Hk Hp.
  apply mapM_Some_1 in Hm.
  destruct (Forall2_lookup_l _ _ _ _ _ Hm Hk) as (p' & Hk' & Hp').
  rewrite (mask_grad_absent _ _ Hp) in Hp'. by simplify_eq.
Qed.

Section MaskedLoop.
Context {Image Output : Type}.
Context (autograd : (list param -> option Q) -> list param -> nat -> list Q).

(** Gradients have the shape of their parameter. *)
Hypothesis autograd_shape :
  forall (f : list param -> option Q) (m : list param) (k : nat) (p : param),
    m !! k = Some p -> length (autograd f m k) = length (p_data p).

(** Between two iterations every gradient buffer is empty, and every mask
    entry that names a parameter is an all-ones tensor of its shape. *)
Let ready (mask : gmap string (list Q)) (m : list param) : Prop :=
  Forall (fun p =>
            p_grad p = None /\
            forall mk, mask !! p_name p = Some mk ->
                       mk = replicate (length (p_data p)) 1%Q) m.

Lemma mask_gradients_ones (mask : gmap string (list Q))
    (f : list param -> option Q) (m : list param) :
  ready mask m ->
  mask_gradients true mask (backward autograd f m) = Some (backward autograd f m).
Proof.
  intros Hready. unfold mask_gradients. apply mapM_Some_2.
  apply Forall2_same_length_lookup_2; [done |].
  intros k p1 p2 Hk1 Hk2. simplify_eq.
  unfold backward in Hk1. apply list_lookup_imap_Some in Hk1 as (p & Hk & ->).
  pose proof (proj1 (Forall_lookup _ _) Hready k p Hk) as [Hg Hmk].
  unfold mask_grad, accumulate. simpl. rewrite Hg.
  destruct (mask !! p_name p) as [mk|] eqn:Hlook; [| done].
  rewrite (Hmk mk eq_refl). csimpl.
  rewrite <- (autograd_shape f m k p Hk), mul__ones. done.
Qed.

Lemma unlearn_batch_ready (mask : gmap string (list Q)) (method : method_t Image Output)
    (criterion : Output -> list Z -> list Q) (ld : loader Image)
    (mask' : gmap string (list Q)) (LR : Q) (m m' : list param) (data : batch Image)
    (draw : nat -> Z) :
  ready mask m ->
  unlearn_batch autograd method criterion ld false mask' LR m data draw = Some m' ->
  ready mask m'.
Proof.
  intros Hready Hrun. unfold unlearn_batch in Hrun.
  destruct (method m _ _ _ _ _ _ _) as [loss|]; [| done].
  simpl in Hrun. simplify_eq.
  apply Forall_lookup. intros k p' Hk'.
  unfold zero_grad, optimizer_step, backward in Hk'.
  rewrite !list_lookup_fmap, list_lookup_imap in Hk'.
  destruct (m !! k) as [p|] eqn:Hk; [| done]. simpl in Hk'. simplify_eq.
  pose proof (proj1 (Forall_lookup _ _) Hready k p Hk) as [Hg Hmk].
  split; [done |].
  unfold sgd_param, accumulate. simpl. rewrite Hg. simpl.
  intros mk Hlook. rewrite (Hmk mk Hlook).
  rewrite length_zip_with_l_eq; [done |].
  symmetry. by apply autograd_shape.
Qed.

Lemma unlearn_batch_ones (mask : gmap string (list Q)) (method : method_t Image Output)
    (criterion : Output -> list Z -> list Q) (ld : loader Image)
    (mask' : gmap string (list Q)) (LR : Q) (m : list param) (data : batch Image)
    (draw : nat -> Z) :
  ready mask m ->
  unlearn_batch autograd method criterion ld true mask LR m data draw
  = unlearn_batch autograd method criterion ld false mask' LR m data draw.
Proof.
  intros Hready. unfold unlearn_batch.
  destruct (method m _ _ _ _ _ _ _) as [loss|]; [| done].
  cbv zeta. by rewrite mask_gradients_ones.
Qed.

(** C7. With every mask entry that names a parameter equal to an all-ones
    tensor of the parameter's shape, the update loop with masking enabled
    returns exactly the model the loop with masking disabled returns, for
    every strategy, model and batch sequence; and a parameter whose name is
    absent from the mask goes through the masking step with its gradient
    unchanged. *)
Theorem all_ones_mask_is_identity (method : method_t Image Output)
    (criterion : Output -> list Z -> list Q) (ld : loader Image)
    (mask mask' : gmap string (list Q)) (LR : Q) (m : list param)
    (bs : list (batch Image)) (draws : nat -> nat -> Z) (k : nat) :
  Forall (fun p => p_grad p = None) m ->
  (forall (p : param) (mk : list Q),
      p ∈ m -> mask !! p_name p = Some mk ->
      mk = replicate (length (p_data p)) 1%Q) ->
  unlearn_batches autograd method criterion ld true mask LR m bs draws k
  = unlearn_batches autograd method criterion ld false mask' LR m bs draws k
  /\
  (forall (m1 m2 : list param) (j : nat) (p : param),
      mask_gradients true mask m1 = Some m2 ->
      m1 !! j = Some p -> mask !! p_name p = None -> m2 !! j = Some p).
Proof.
  intros Hgrad Hones. split; [| apply mask_gradients_absent].
  assert (Hready : ready mask m).
  { apply Forall_forall. intros p Hp. split.
    - by apply (proj1 (Forall_forall _ _) Hgrad).
    - intros mk. by apply Hones. }
  clear Hgrad Hones. revert m k Hready.
  induction bs as [|data bs IH]; intros m k Hready; [done |].
  simpl. rewrite (unlearn_batch_ones mask method criterion ld mask') by done.
  destruct (unlearn_batch autograd method criterion ld false mask' LR m data (draws k))
    as [m'|] eqn:Hstep; [| done].
  simpl. apply IH. by eapply unlearn_batch_ready.
Qed.

End MaskedLoop.

(** ** Evaluator *)

Lemma inject_Z_nonneg (z : Z) : 0 <= z -> (0 <= inject_Z z)%Q.
Proof. intros Hz. unfold Qle. simpl. lia. Qed.

Lemma Qdiv_nonneg (a b : Q) : (0 <= a -> 0 <= b -> 0 <= a / b)%Q.
Proof.
  intros Ha Hb. unfold Qdiv. apply Qmult_le_0_compat; [done |].
  by apply Qinv_le_0_compat.
Qed.

Lemma Qplus_nonneg (a b : Q) : (0 <= a -> 0 <= b -> 0 <= a + b)%Q.
Proof. intros Ha Hb. change 0%Q with (0 + 0)%Q. by apply Qplus_le_compat. Qed.

Section Evaluator.
Context {Image Output : Type}.
Context (forward : list param -> list Image -> Output).
Context (topk : Output -> nat -> list (list Z)).

Lemma eval_batches_losses (m : list param) (criterion : Output -> list Z -> list Q)
    (bs : list (batch Image)) (st : Q * list Q) :
  (fold_left (eval_batch forward topk m criterion) bs st).2
  = st.2 ++ (batch_loss forward m criterion <$> bs).
Proof.
  revert st. induction bs as [|b bs IH]; intros st; simpl.
  - by rewrite app_nil_r.
  - rewrite IH. simpl. by rewrite <- app_assoc.
Qed.

Lemma compute_topk_nonneg (labels : list Z) (outputs : Output) (k : nat) :
  0 <= compute_topk topk labels outputs k.
Proof. unfold compute_topk. lia. Qed.

Lemma eval_batches_nonneg (m : list param) (criterion : Output -> list Z -> list Q)
    (bs : list (batch Image)) (st : Q * list Q) :
  (0 <= st.1)%Q ->
  (0 <= (fold_left (eval_batch forward topk m criterion) bs st).1)%Q.
Proof.
  revert st. induction bs as [|b bs IH]; intros st Hst; simpl; [done |].
  apply IH. simpl. apply Qplus_nonneg; [done |].
  apply inject_Z_nonneg, compute_topk_nonneg.
Qed.

(** What [eval_splits] leaves in the two dictionaries. *)
Lemma eval_splits_losses (m : list param) (criterion : Output -> list Z -> list Q)
    (zipped : list (loader Image * string)) :
  NoDup zipped.*2 ->
  Forall (fun z => dataset_len z.1 <> O) zipped ->
  forall (tot_acc : Q) (accs : gmap string Q) (losses : gmap string (list Q)),
  exists (accs' : gmap string Q) (losses' : gmap string (list Q)),
    eval_splits forward topk m criterion zipped tot_acc accs losses
    = Some (accs', losses') /\
    (forall (ld : loader Image) (name : string),
        (ld, name) ∈ zipped ->
        losses' !! name = Some (batch_loss forward m criterion <$> batches ld)) /\
    (forall name : string, name ∉ zipped.*2 -> losses' !! name = losses !! name).
Proof.
  induction zipped as [|[ld0 name0] zipped IH]; intros Hnd Hlen tot_acc accs losses.
  - exists accs, losses. split; [done |]. split; [| done].
    intros ld name Hin. by apply elem_of_nil in Hin.
  - apply NoDup_cons in Hnd as [Hfresh Hnd]. simpl in Hfresh.
    apply Forall_cons in Hlen as [Hlen0 Hlen]. simpl in Hlen0.
    simpl. destruct (dataset_len ld0) as [|n] eqn:Hn; [done |].
    match goal with
    | |- context [eval_splits _ _ _ _ zipped ?t ?a ?l] =>
        destruct (IH Hnd Hlen t a l) as (accs' & losses' & Hrun & Hin & Hout)
    end.
    exists accs', losses'. split; [done |]. split.
    + intros ld name [Heq|Hrest]%elem_of_cons.
      * simplify_eq. rewrite (Hout _ Hfresh), lookup_insert_eq.
        by rewrite eval_batches_losses.
      * by apply Hin.
    + intros name Hname. apply not_elem_of_cons in Hname as [Hne Hname].
      rewrite (Hout _ Hname). by apply lookup_insert_ne.
Qed.

Lemma eval_splits_nonneg (m : list param) (criterion : Output -> list Z -> list Q)
    (zipped : list (loader Image * string)) :
  forall (tot_acc : Q) (accs accs' : gmap string Q)
         (losses losses' : gmap string (list Q)),
    (0 <= tot_acc)%Q ->
    map_Forall (fun _ a => (0 <= a)%Q) accs ->
    eval_splits forward topk m criterion zipped tot_acc accs losses
    = Some (accs', losses') ->
    map_Forall (fun _ a => (0 <= a)%Q) accs'.
Proof.
  induction zipped as [|[ld0 name0] zipped IH];
    intros tot_acc accs accs' losses losses' Htot Haccs Hrun; simpl in Hrun.
  - by simplify_eq.
  - destruct (dataset_len ld0) as [|n] eqn:Hn; [done |].
    eapply IH; [| | exact Hrun].
    + apply Qdiv_nonneg; [by apply eval_batches_nonneg |].
      apply inject_Z_nonneg. lia.
    + apply map_Forall_insert_2; [| done].
      apply Qdiv_nonneg; [by apply eval_batches_nonneg |].
      apply inject_Z_nonneg. lia.
Qed.

Lemma NoDup_zip_snd (loaders : list (loader Image)) (names : list string) :
  NoDup names -> NoDup (zip loaders names).*2.
Proof.
  revert names. induction loaders as [|ld loaders IH]; intros [|name names] Hnd;
    simpl; try apply NoDup_nil_2.
  apply NoDup_cons in Hnd as [Hfresh Hnd]. apply NoDup_cons. split; [| by apply IH].
  intros Hin. apply Hfresh.
  apply list_elem_of_fmap in Hin as ([ld' name'] & -> & Hin).
  by apply elem_of_zip_r in Hin.
Qed.

(** C3, as the code has it. When no split is empty and the names are
    distinct, [eval_unlearning] returns, and the loss list of every split
    holds one entry per batch of the split, in batch order, each the mean of
    the per-example losses of its batch; so its length is the number of
    batches of the split. *)
Theorem eval_unlearning_losses_per_batch (m : list param)
    (loaders : list (loader Image)) (names : list string)
    (criterion : Output -> list Z -> list Q) :
  NoDup names ->
  Forall (fun ld => dataset_len ld <> O) loaders ->
  exists (accs : gmap string Q) (losses : gmap string (list Q)),
    eval_unlearning forward topk m loaders names criterion = Some (accs, losses) /\
    forall (k : nat) (ld : loader Image) (name : string),
      loaders !! k = Some ld -> names !! k = Some name ->
      exists ls : list Q,
        losses !! name = Some ls /\
        ls = batch_loss forward m criterion <$> batches ld /\
        length ls = length (batches ld).
Proof.
  intros Hnd Hlen. unfold eval_unlearning.
  destruct (eval_splits_losses m criterion (zip loaders names)) with
    (tot_acc := 0%Q) (accs := (∅ : gmap string Q))
    (losses := (∅ : gmap string (list Q)))
    as (accs & losses & Hrun & Hin & _).
  - by apply NoDup_zip_snd.
  - apply Forall_forall. intros [ld name] Hz. simpl.
    apply elem_of_zip_l in Hz. by apply (proj1 (Forall_forall _ _) Hlen).
  - exists accs, losses. split; [done |].
    intros k ld name Hld Hname. eexists. split; [| split; [done |]].
    + apply Hin. apply list_elem_of_lookup. exists k.
      unfold zip. apply lookup_zip_with_Some. eauto.
    + by rewrite length_fmap.
Qed.

End Evaluator.

(** ** Membership-inference attacker *)

Lemma Qgtb_true (a b : Q) : Qgtb a b = true -> (b < a)%Q.
Proof.
  unfold Qgtb. intros Hgt. apply negb_true_iff in Hgt.
  apply Qnot_le_lt. intros Hle. apply Qle_bool_iff in Hle. congruence.
Qed.

Lemma Qgtb_false (a b : Q) : Qgtb a b = false -> (a <= b)%Q.
Proof.
  unfold Qgtb. intros Hgt. apply negb_false_iff in Hgt. by apply Qle_bool_iff.
Qed.

Lemma Qgtb_false_2 (a b : Q) : (a <= b)%Q -> Qgtb a b = false.
Proof.
  unfold Qgtb. intros Hle. apply negb_false_iff. by apply Qle_bool_iff.
Qed.

(** The pair the grid loop carries: its accuracy never decreases, bounds the
    accuracy of every point seen, and the pair is either the initial one or
    the first point whose accuracy is the largest seen. *)
Lemma mia_fold_spec (pts : list (Q * Q)) :
  forall best : Q * Q,
    (best.2 <= (fold_left mia_update pts best).2)%Q /\
    (forall p : Q * Q, p ∈ pts -> (p.2 <= (fold_left mia_update pts best).2)%Q) /\
    ((fold_left mia_update pts best = best /\
      forall p : Q * Q, p ∈ pts -> (p.2 <= best.2)%Q) \/
     (exists (k : nat) (p : Q * Q),
         pts !! k = Some p /\ fold_left mia_update pts best = p /\
         (best.2 < p.2)%Q /\
         forall (j : nat) (q : Q * Q),
           (j < k)%nat -> pts !! j = Some q -> (q.2 < p.2)%Q)).
Proof.
  induction pts as [|[auc acc] pts IH]; intros best.
  - simpl. split; [apply Qle_refl |]. split.
    + intros p Hp. by apply elem_of_nil in Hp.
    + left. split; [done |]. intros p Hp. by apply elem_of_nil in Hp.
  - cbn [fold_left].
    assert (Hstep : mia_update best (auc, acc)
                    = if Qgtb acc best.2 then (auc, acc) else best) by done.
    rewrite Hstep. clear Hstep.
    destruct (Qgtb acc best.2) eqn:Hgt.
    + apply Qgtb_true in Hgt.
      destruct (IH (auc, acc)) as (Hmono & Hbound & Hcase). simpl in Hmono.
      split; [apply Qlt_le_weak; by eapply Qlt_le_trans |]. split.
      * intros p [->|Hp]%elem_of_cons; [done | by apply Hbound].
      * right. destruct Hcase as [[Hsame Hall]|(k & p & Hk & Hp & Hlt & Hfirst)].
        -- exists O, (auc, acc). split; [done |]. split; [done |].
           split; [done |]. intros j q Hj. lia.
        -- exists (S k), p. split; [done |]. split; [done |].
           split; [by eapply Qlt_trans |].
           intros [|j] q Hj Hq; simplify_eq/=; [done |].
           eapply Hfirst; [| done]. lia.
    + apply Qgtb_false in Hgt.
      destruct (IH best) as (Hmono & Hbound & Hcase).
      split; [done |]. split.
      * intros p [->|Hp]%elem_of_cons; [by eapply Qle_trans | by apply Hbound].
      * destruct Hcase as [[Hsame Hall]|(k & p & Hk & Hp & Hlt & Hfirst)].
        -- left. split; [done |].
           intros p [->|Hp]%elem_of_cons; [done | by apply Hall].
        -- right. exists (S k), p. split; [done |]. split; [done |].
           split; [done |].
           intros [|j] q Hj Hq; simplify_eq/=; [by eapply Qle_lt_trans |].
           eapply Hfirst; [| done]. lia.
Qed.

Lemma qsum_indicator_bound (l : list Q) :
  Forall (fun v => v = 1%Q \/ v = 0%Q) l ->
  forall a : Q, (fold_left Qplus l a <= a + inject_Z (Z.of_nat (length l)))%Q.
Proof.
  induction 1 as [|v l Hv _ IH]; intros a.
  - cbn [fold_left length]. change (inject_Z (Z.of_nat 0)) with 0%Q. lra.
  - cbn [fold_left length]. eapply Qle_trans; [apply IH |].
    rewrite Nat2Z.inj_succ. unfold Z.succ. rewrite inject_Z_plus.
    change (inject_Z 1) with 1%Q.
    destruct Hv as [-> | ->]; lra.
Qed.

Lemma mean_indicator_le_1 (l : list Q) :
  Forall (fun v => v = 1%Q \/ v = 0%Q) l -> (mean l <= 1)%Q.
Proof.
  intros Hl. unfold mean, qsum. destruct l as [|v l]; [done |].
  apply Qle_shift_div_r.
  - change 0%Q with (inject_Z 0). rewrite <- Zlt_Qlt. simpl. lia.
  - pose proof (qsum_indicator_bound _ Hl 0). lra.
Qed.

Section Attacker.
Context {Forest : Type}.
Context (fit : Z -> split_criterion -> list Q -> list Q -> Forest).
Context (predict_proba1 predict : Forest -> list Q -> list Q).
Context (roc_auc_score : list Q -> list Q -> Q).

(** A fitted forest predicts class labels it has seen in training. *)
Hypothesis predict_labels :
  forall (n_est : Z) (c : split_criterion) (X y xs : list Q),
    Forall (fun v => v ∈ y) (predict (fit n_est c X y) xs).

Lemma compute_basic_mia_grid (retain_losses forget_losses val_losses test_losses : list Q) :
  compute_basic_mia fit predict_proba1 predict roc_auc_score
    retain_losses forget_losses val_losses test_losses
  = fold_left mia_update
      (mia_points fit predict_proba1 predict roc_auc_score
         retain_losses forget_losses val_losses test_losses)
      (0%Q, 0%Q).
Proof. reflexivity. Qed.

Lemma mia_points_acc_nonneg (retain_losses forget_losses val_losses test_losses : list Q)
    (p : Q * Q) :
  p ∈ mia_points fit predict_proba1 predict roc_auc_score
        retain_losses forget_losses val_losses test_losses ->
  (0 <= p.2)%Q.
Proof.
  unfold mia_points. intros ([n_est c] & -> & _)%list_elem_of_fmap.
  unfold mia_point. simpl.
  apply Qmult_le_0_compat; [| done].
  match goal with |- (0 <= 1 - mean ?l)%Q => assert (Hm : (mean l <= 1)%Q) end;
    [| lra].
  apply mean_indicator_le_1.
  eapply Forall_impl; [apply predict_labels |].
  intros v [Hv|Hv]%elem_of_app; apply elem_of_replicate in Hv as [-> _]; auto.
Qed.

(** C1, as the code has it. On four non-empty loss lists, the accuracy
    returned by [compute_basic_mia] is the maximum forget-only accuracy over
    the grid, and the AUC returned is the AUC of the first grid point, in
    the order of the loops, that reaches this accuracy; when no grid point
    has an accuracy above 0 the pair returned is the initial [(0, 0)]. *)
Theorem compute_basic_mia_best_pair
    (retain_losses forget_losses val_losses test_losses : list Q) :
  retain_losses <> [] -> forget_losses <> [] ->
  val_losses <> [] -> test_losses <> [] ->
  (forall p : Q * Q,
      p ∈ mia_points fit predict_proba1 predict roc_auc_score
            retain_losses forget_losses val_losses test_losses ->
      (p.2 <= (compute_basic_mia fit predict_proba1 predict roc_auc_score
                 retain_losses forget_losses val_losses test_losses).2)%Q) /\
  (exists p : Q * Q,
      p ∈ mia_points fit predict_proba1 predict roc_auc_score
            retain_losses forget_losses val_losses test_losses /\
      (p.2 == (compute_basic_mia fit predict_proba1 predict roc_auc_score
                 retain_losses forget_losses val_losses test_losses).2)%Q) /\
  ((compute_basic_mia fit predict_proba1 predict roc_auc_score
      retain_losses forget_losses val_losses test_losses = (0%Q, 0%Q) /\
    forall p : Q * Q,
      p ∈ mia_points fit predict_proba1 predict roc_auc_score
            retain_losses forget_losses val_losses test_losses ->
      (p.2 == 0)%Q) \/
   (exists (k : nat) (p : Q * Q),
       mia_points fit predict_proba1 predict roc_auc_score
         retain_losses forget_losses val_losses test_losses !! k = Some p /\
       compute_basic_mia fit predict_proba1 predict roc_auc_score
         retain_losses forget_losses val_losses test_losses = p /\
       (0 < p.2)%Q /\
       forall (j : nat) (q : Q * Q),
         (j < k)%nat ->
         mia_points fit predict_proba1 predict roc_auc_score
           retain_losses forget_losses val_losses test_losses !! j = Some q ->
         (q.2 < p.2)%Q)).
Proof.
  intros _ _ _ _. rewrite compute_basic_mia_grid.
  pose proof (mia_points_acc_nonneg retain_losses forget_losses val_losses test_losses)
    as Hnonneg.
  set (pts := mia_points _ _ _ _ _ _ _ _) in *.
  destruct (mia_fold_spec pts (0%Q, 0%Q)) as (_ & Hbound & Hcase).
  split; [done |].
  destruct Hcase as [[Hsame Hall]|(k & p & Hk & Hp & Hlt & Hfirst)].
  - assert (Hzero : forall p : Q * Q, p ∈ pts -> (p.2 == 0)%Q).
    { intros p Hp. apply Qle_antisym; [by apply Hall | by apply Hnonneg]. }
    split; [| by left].
    assert (Hin : exists p : Q * Q, p ∈ pts) by (eexists; by left).
    destruct Hin as [p Hp]. exists p. split; [done |].
    rewrite Hsame. by apply Hzero.
  - split; [| right; by exists k, p].
    exists p. split; [by eapply list_elem_of_lookup_2 |]. by rewrite Hp.
Qed.

End Attacker.

(** ** Experiment driver *)

Section Driver.
Context {Image Output Forest : Type}.
Context (forward : list param -> list Image -> Output).
Context (autograd : (list param -> option Q) -> list param -> nat -> list Q).
Context (topk : Output -> nat -> list (list Z)).
Context (fit : Z -> split_criterion -> list Q -> list Q -> Forest).
Context (predict_proba1 predict : Forest -> list Q -> list Q).
Context (roc_auc_score : list Q -> list Q -> Q).

(** Every accuracy [eval_unlearning] stores is non-negative. *)
Lemma eval_unlearning_nonneg (m : list param) (loaders : list (loader Image))
    (names : list string) (criterion : Output -> list Z -> list Q)
    (accs : gmap string Q) (losses : gmap string (list Q)) (name : string) (a : Q) :
  eval_unlearning forward topk m loaders names criterion = Some (accs, losses) ->
  accs !! name = Some a -> (0 <= a)%Q.
Proof.
  unfold eval_unlearning. intros Hrun Ha.
  eapply eval_splits_nonneg in Hrun; [by apply (Hrun name a) | done |].
  apply map_Forall_empty.
Qed.

(** The forget value the driver reports is the complement of the value the
    evaluator stored, and it is at most 1. *)
Lemma evaluate_forget (m : list param) (lds : loaders Image)
    (criterion : Output -> list Z -> list Q)
    (accs : gmap string Q) (losses : gmap string (list Q)) :
  evaluate forward topk m lds criterion = Some (accs, losses) ->
  exists (accs0 : gmap string Q) (a : Q),
    eval_unlearning forward topk m
      [test_loader lds; forget_loader lds; retain_loader lds; val_loader lds]
      ["test"; "forget"; "retain"; "val"]%string criterion = Some (accs0, losses) /\
    accs0 !! "forget"%string = Some a /\
    accs = <["forget"%string := (1 - a)%Q]> accs0.
Proof.
  unfold evaluate. intros Hrun.
  destruct (eval_unlearning _ _ _ _ _ _) as [[accs0 losses0]|]; [| done].
  simpl in Hrun. destruct (accs0 !! "forget"%string) as [a|] eqn:Ha; [| done].
  simpl in Hrun. simplify_eq. by exists accs0, a.
Qed.

Lemma measure_forget_le_1 (m : list param) (lds : loaders Image)
    (criterion : Output -> list Z -> list Q) (x : metrics) :
  measure forward topk fit predict_proba1 predict roc_auc_score m lds criterion
  = Some x ->
  (forget_acc x <= 1)%Q.
Proof.
  unfold measure. intros Hrun.
  destruct (evaluate forward topk m lds criterion) as [[accs losses]|] eqn:Hev;
    [| done].
  simpl in Hrun.
  destruct (compute_mia _ _ _ _ losses) as [mia|]; [| done]. simpl in Hrun.
  destruct (accs !! "test"%string) as [t|]; [| done]. simpl in Hrun.
  destruct (accs !! "forget"%string) as [f|] eqn:Hf; [| done]. simpl in Hrun.
  destruct (accs !! "retain"%string) as [r|]; [| done]. simpl in Hrun.
  destruct (accs !! "val"%string) as [v|]; [| done]. simpl in Hrun.
  simplify_eq. simpl.
  apply evaluate_forget in Hev as (accs0 & a & Hrun & Ha & ->).
  rewrite lookup_insert_eq in Hf. simplify_eq.
  pose proof (eval_unlearning_nonneg _ _ _ _ _ _ _ _ Hrun Ha). lra.
Qed.

(** The forget tracker keeps its initial value through the two [if]s. *)
Lemma track_best_forget (st : run_state) (m : list param) (x : metrics)
    (log : list (gmap string Q)) :
  best_forget_acc st = 100%Q -> (forget_acc x <= 1)%Q ->
  Qgtb (forget_acc x) (best_forget_acc st) = false /\
  best_forget_acc (track_best st m x log) = 100%Q /\
  best_forget (track_best st m x log) = best_forget st.
Proof.
  intros Hinit Hle.
  assert (Hcond : Qgtb (forget_acc x) (best_forget_acc st) = false).
  { apply Qgtb_false_2. rewrite Hinit. lra. }
  unfold track_best. simpl. rewrite Hcond. by simpl.
Qed.

Lemma run_epochs_best_forget (n : nat) (cfg : settings) (lds : loaders Image)
    (criterion : Output -> list Z -> list Q) (mask : gmap string (list Q))
    (rng : nat -> nat -> nat -> Z) (st0 st : run_state) :
  best_forget_acc st0 = 100%Q ->
  run_epochs forward autograd topk fit predict_proba1 predict roc_auc_score
    n cfg lds criterion mask rng st0 = Some st ->
  best_forget_acc st = 100%Q /\ best_forget st = best_forget st0.
Proof.
  intros Hinit. revert st. induction n as [|n IH]; intros st Hrun; simpl in Hrun.
  - by simplify_eq.
  - destruct (run_epochs _ _ _ _ _ _ _ n _ _ _ _ _ _) as [st1|]; [| done].
    simpl in Hrun. destruct (IH st1 eq_refl) as [Hacc Hbest].
    unfold epoch_body in Hrun.
    destruct (select_method _ _ _) as [sel|]; [| done]. simpl in Hrun.
    destruct (unlearn_epoch _ _ _ _ _ _ _ _ _) as [m|]; [| done]. simpl in Hrun.
    destruct (measure _ _ _ _ _ _ m lds criterion) as [x|] eqn:Hx; [| done].
    simpl in Hrun. simplify_eq.
    destruct (track_best_forget st1 m x
                (if LOG cfg then wandb_log st1 ++ [log_entry "" x] else wandb_log st1)
                Hacc (measure_forget_le_1 _ _ _ _ Hx)) as (_ & Hacc' & Hbest').
    split; [done | congruence].
Qed.

(** C9. Whatever the settings, the loaders, the model and the number of
    epochs, the state an experiment reaches has [best_forget_acc] still at
    100 and [best_forget] still empty, and the test
    [forget_acc > best_forget_acc] is false in that state for the metrics of
    any model. Since the number of epochs is one of the settings, the state
    ranges over the states at the start of every epoch of every run. *)
Theorem best_forget_never_updated (cfg : settings) (lds : loaders Image)
    (criterion : Output -> list Z -> list Q) (mask : gmap string (list Q))
    (rng : nat -> nat -> nat -> Z) (m : list param) (st : run_state) :
  run_experiment forward autograd topk fit predict_proba1 predict roc_auc_score
    cfg lds criterion mask rng m = Some st ->
  best_forget st = ∅ /\
  best_forget_acc st = 100%Q /\
  forall (m' : list param) (x : metrics),
    measure forward topk fit predict_proba1 predict roc_auc_score m' lds criterion
    = Some x ->
    Qgtb (forget_acc x) (best_forget_acc st) = false.
Proof.
  unfold run_experiment. intros Hrun.
  destruct (measure _ _ _ _ _ _ m lds criterion) as [x0|]; [| done].
  simpl in Hrun. apply run_epochs_best_forget in Hrun as [Hacc Hbest]; [| done].
  split; [done |]. split; [done |].
  intros m' x Hx. apply Qgtb_false_2. rewrite Hacc.
  pose proof (measure_forget_le_1 _ _ _ _ Hx). lra.
Qed.

End Driver.

(** ** The evaluator on concrete splits *)

(** C2. On four splits of one example each, all classified correctly, the
    top-1 accuracy of every split is 1, yet [eval_unlearning] stores 1 for
    the first split, 2 for the second, 3 for the third and 4 for the fourth:
    the accumulator [tot_acc] is not reset between splits, so the value of a
    split depends on the splits evaluated before it and leaves [0, 1]. *)
Theorem eval_unlearning_accuracy_carries_over :
  exists (accs : gmap string Q) (losses : gmap string (list Q)),
    eval_unlearning Toy.forward Toy.topk Toy.net
      [test_loader Toy.all_right; forget_loader Toy.all_right;
       retain_loader Toy.all_right; val_loader Toy.all_right]
      ["test"; "forget"; "retain"; "val"]%string Toy.criterion
    = Some (accs, losses) /\
    accs !! "test"%string = Some 1%Q /\
    accs !! "forget"%string = Some 2%Q /\
    accs !! "retain"%string = Some 3%Q /\
    accs !! "val"%string = Some 4%Q /\
    top1_accuracy Toy.forward Toy.topk Toy.net (forget_loader Toy.all_right) = 1%Q /\
    top1_accuracy Toy.forward Toy.topk Toy.net (retain_loader Toy.all_right) = 1%Q /\
    top1_accuracy Toy.forward Toy.topk Toy.net (val_loader Toy.all_right) = 1%Q.
Proof.
  do 2 eexists. split; [vm_compute; reflexivity |].
  repeat split; vm_compute; reflexivity.
Qed.

(** C8. With the test example classified correctly and the forget example
    missed, the top-1 accuracy of the forget split is 0 and that of the retain
    split is 1, yet the driver reports 0 for forget (not 1 - 0) and 2 for
    retain: the inversion is applied to a value that already carries the
    accuracy of the test split. *)
Theorem evaluate_reports_carried_accuracy :
  exists (accs : gmap string Q) (losses : gmap string (list Q)),
    evaluate Toy.forward Toy.topk Toy.net Toy.forget_missed Toy.criterion
    = Some (accs, losses) /\
    accs !! "test"%string = Some 1%Q /\
    accs !! "forget"%string = Some 0%Q /\
    accs !! "retain"%string = Some 2%Q /\
    top1_accuracy Toy.forward Toy.topk Toy.net (forget_loader Toy.forget_missed) = 0%Q /\
    top1_accuracy Toy.forward Toy.topk Toy.net (retain_loader Toy.forget_missed) = 1%Q.
Proof.
  do 2 eexists. split; [vm_compute; reflexivity |].
  repeat split; vm_compute; reflexivity.
Qed.

(** C3 fails as stated: a split of two examples in one batch gets a loss
    list of one entry. *)
Lemma loss_list_has_one_entry_per_batch_not_per_example :
  exists (accs : gmap string Q) (losses : gmap string (list Q)) (ls : list Q),
    eval_unlearning Toy.forward Toy.topk Toy.net [Toy.train] ["train"%string]
      Toy.criterion = Some (accs, losses) /\
    losses !! "train"%string = Some ls /\
    length ls = 1%nat /\
    examples Toy.train = 2%nat /\
    dataset_len Toy.train = 2%nat /\
    length ls <> examples Toy.train.
Proof.
  do 3 eexists. split; [vm_compute; reflexivity |].
  split; [vm_compute; reflexivity |].
  repeat split; vm_compute; congruence.
Qed.

Lemma eval_unlearning_losses_per_batch_witness :
  NoDup ["train"%string] /\
  Forall (fun ld : loader Z => dataset_len ld <> O) [Toy.train] /\
  exists (accs : gmap string Q) (losses : gmap string (list Q)),
    eval_unlearning Toy.forward Toy.topk Toy.net [Toy.train] ["train"%string]
      Toy.criterion = Some (accs, losses) /\
    forall (k : nat) (ld : loader Z) (name : string),
      [Toy.train] !! k = Some ld -> ["train"%string] !! k = Some name ->
      exists ls : list Q,
        losses !! name = Some ls /\
        ls = batch_loss Toy.forward Toy.net Toy.criterion <$> batches ld /\
        length ls = length (batches ld).
Proof.
  assert (Hnd : NoDup ["train"%string]).
  { apply NoDup_cons. split; [apply not_elem_of_nil | apply NoDup_nil_2]. }
  assert (Hlen : Forall (fun ld : loader Z => dataset_len ld <> O) [Toy.train]).
  { apply Forall_cons. split; [| apply Forall_nil_2]. simpl. lia. }
  split; [exact Hnd |]. split; [exact Hlen |].
  exact (eval_unlearning_losses_per_batch Toy.forward Toy.topk Toy.net
           [Toy.train] ["train"%string] Toy.criterion Hnd Hlen).
Defined.

(** ** The strategies on a concrete batch *)

Lemma rand_label_forget_labels_differ_witness :
  Toy.store !! 1%positive = Some [0; 1] /\
  length [3; 4] = length [0; 1] /\
  (forall k : nat, 1 <= Toy.draw k < Z.of_nat (length (classes (ds Toy.train)))) /\
  Z.of_nat (length (classes (ds Toy.train))) <= 2 ^ 62 /\
  exists (loss : Q) (h' : gmap positive (list Z)) (tgt' : list Z),
    rand_label Toy.forward Toy.net [0; 1] 1%positive [3; 4] Toy.criterion Toy.train
      Toy.draw Toy.store = Some (loss, h') /\
    h' !! 1%positive = Some tgt' /\
    length tgt' = length [0; 1] /\
    forall (k : nat) (i t : Z),
      [3; 4] !! k = Some i -> [0; 1] !! k = Some t ->
      exists t' : Z,
        tgt' !! k = Some t' /\
        (i ∈ FORGET (ds Toy.train) -> t' <> t) /\
        (i ∉ FORGET (ds Toy.train) -> t' = t).
Proof.
  assert (H1 : Toy.store !! 1%positive = Some [0; 1]) by reflexivity.
  assert (H2 : length [3; 4] = length [0; 1]) by reflexivity.
  assert (H3 : forall k : nat,
             1 <= Toy.draw k < Z.of_nat (length (classes (ds Toy.train))))
    by (intros k; simpl; unfold Toy.draw; lia).
  assert (H4 : Z.of_nat (length (classes (ds Toy.train))) <= 2 ^ 62)
    by (simpl; lia).
  repeat (split; [assumption |]).
  exact (rand_label_forget_labels_differ Toy.forward Toy.net [0; 1] 1%positive
           [3; 4] Toy.criterion Toy.train Toy.draw Toy.store [0; 1] H1 H2 H3 H4).
Defined.

Lemma rand_label_mutates_target_witness :
  Toy.store !! 1%positive = Some [0; 1] /\
  length [3; 4] = length [0; 1] /\
  1 < Z.of_nat (length (classes (ds Toy.train))) /\
  exists (h' : gmap positive (list Z)) (tgt' : list Z),
    rand_label Toy.forward Toy.net [0; 1] 1%positive [3; 4] Toy.criterion Toy.train
      Toy.draw Toy.store
    = Some (mean (Toy.criterion (Toy.forward Toy.net [0; 1]) tgt'), h') /\
    h' !! 1%positive = Some tgt' /\
    (forall l : positive, l <> 1%positive -> h' !! l = Toy.store !! l) /\
    length tgt' = length [0; 1] /\
    forall (k : nat) (i t : Z),
      [3; 4] !! k = Some i -> [0; 1] !! k = Some t ->
      tgt' !! k
      = Some (if bool_decide (i ∈ FORGET (ds Toy.train))
              then rem64 (add64 t (Toy.draw k))
                     (Z.of_nat (length (classes (ds Toy.train))))
              else t).
Proof.
  assert (H1 : Toy.store !! 1%positive = Some [0; 1]) by reflexivity.
  assert (H2 : length [3; 4] = length [0; 1]) by reflexivity.
  assert (H3 : 1 < Z.of_nat (length (classes (ds Toy.train)))) by (simpl; lia).
  repeat (split; [assumption |]).
  exact (rand_label_mutates_target Toy.forward Toy.net [0; 1] 1%positive
           [3; 4] Toy.criterion Toy.train Toy.draw Toy.store [0; 1] H1 H2 H3).
Defined.

Lemma grad_ascent_negates_forget_losses_witness :
  Toy.store !! 1%positive = Some [0; 1] /\
  length [3; 4] = length (Toy.criterion (Toy.forward Toy.net [1; 1]) [0; 1]) /\
  exists contrib : list Q,
    grad_ascent Toy.forward Toy.net [1; 1] 1%positive [3; 4] Toy.criterion Toy.train
      Toy.draw Toy.store = Some (mean contrib, Toy.store) /\
    length contrib = length (Toy.criterion (Toy.forward Toy.net [1; 1]) [0; 1]) /\
    forall (k : nat) (i : Z) (l : Q),
      [3; 4] !! k = Some i ->
      Toy.criterion (Toy.forward Toy.net [1; 1]) [0; 1] !! k = Some l ->
      contrib !! k
      = Some (if bool_decide (i ∈ FORGET (ds Toy.train)) then (- l)%Q else l).
Proof.
  assert (H1 : Toy.store !! 1%positive = Some [0; 1]) by reflexivity.
  assert (H2 : length [3; 4]
               = length (Toy.criterion (Toy.forward Toy.net [1; 1]) [0; 1]))
    by reflexivity.
  repeat (split; [assumption |]).
  exact (grad_ascent_negates_forget_losses Toy.forward Toy.net [1; 1] 1%positive
           [3; 4] Toy.criterion Toy.train Toy.draw Toy.store [0; 1] H1 H2).
Defined.

(** ** The update loop on a concrete model *)

Lemma toy_autograd_shape (f : list param -> option Q) (m : list param) (k : nat)
    (p : param) :
  m !! k = Some p -> length (Toy.autograd f m k) = length (p_data p).
Proof. intros Hk. unfold Toy.autograd. rewrite Hk. by rewrite length_fmap. Qed.

Lemma toy_ones_mask (p : param) (mk : list Q) :
  p ∈ Toy.net -> Toy.ones_mask !! p_name p = Some mk ->
  mk = replicate (length (p_data p)) 1%Q.
Proof.
  intros Hp. apply elem_of_cons in Hp as [-> | Hp].
  - vm_compute. by intros [= <-].
  - apply list_elem_of_singleton in Hp as ->. vm_compute. discriminate.
Qed.

Lemma all_ones_mask_is_identity_witness :
  Forall (fun p => p_grad p = None) Toy.net /\
  unlearn_batches Toy.autograd (rand_label Toy.forward) Toy.criterion Toy.train
    true Toy.ones_mask (1 # 10)%Q Toy.net (batches Toy.train) (Toy.rng 0) 0
  = unlearn_batches Toy.autograd (rand_label Toy.forward) Toy.criterion Toy.train
      false ∅ (1 # 10)%Q Toy.net (batches Toy.train) (Toy.rng 0) 0.
Proof.
  assert (Hgrad : Forall (fun p => p_grad p = None) Toy.net)
    by (repeat constructor).
  split; [exact Hgrad |].
  exact (proj1 (all_ones_mask_is_identity Toy.autograd toy_autograd_shape
                  (rand_label Toy.forward) Toy.criterion Toy.train
                  Toy.ones_mask ∅ (1 # 10)%Q Toy.net (batches Toy.train)
                  (Toy.rng 0) 0%nat Hgrad toy_ones_mask)).
Defined.

(** ** The attacker on a concrete grid *)

(** C1 fails as stated: with the classifier of [Toy], the grid points with
    20 trees have accuracy 100 and AUC 20, those with 100 trees have
    accuracy 0 and AUC 100; [compute_basic_mia] returns the accuracy 100
    with the AUC 20, which is below the AUC of a grid point. *)
Lemma best_auc_is_not_the_maximum_auc :
  exists p : Q * Q,
    p ∈ mia_points Toy.fit Toy.predict_proba1 Toy.predict Toy.roc_auc_score
          [1%Q] [1%Q] [1%Q] [1%Q] /\
    ((compute_basic_mia Toy.fit Toy.predict_proba1 Toy.predict Toy.roc_auc_score
        [1%Q] [1%Q] [1%Q] [1%Q]).1 < p.1)%Q /\
    ((compute_basic_mia Toy.fit Toy.predict_proba1 Toy.predict Toy.roc_auc_score
        [1%Q] [1%Q] [1%Q] [1%Q]).1 == 20)%Q /\
    (p.1 == 100)%Q.
Proof.
  exists (mia_point Toy.fit Toy.predict_proba1 Toy.predict Toy.roc_auc_score
            [1%Q; 1%Q] [1%Q; 0%Q] [1%Q; 1%Q] [1%Q; 0%Q] [1%Q] 100 gini).
  split; [| repeat split; vm_compute; reflexivity].
  apply list_elem_of_lookup. by exists 4%nat.
Qed.

Lemma last_elem_of (y0 : Q) (l : list Q) : List.last (y0 :: l) y0 ∈ y0 :: l.
Proof.
  revert y0. induction l as [|y1 l IH]; intros y0; [by left |].
  right. change (List.last (y0 :: y1 :: l) y0) with (List.last (y1 :: l) y0).
  destruct l as [|y2 l]; [by left |].
  change (List.last (y1 :: y2 :: l) y0) with (List.last (y2 :: l) y0).
  specialize (IH y1).
  change (List.last (y1 :: y2 :: l) y1) with (List.last (y2 :: l) y1) in IH.
  assert (Hd : forall d d' : Q, List.last (y2 :: l) d = List.last (y2 :: l) d').
  { clear. revert y2. induction l as [|y3 l IH]; intros y2 d d'; [done |].
    change (List.last (y2 :: y3 :: l) d) with (List.last (y3 :: l) d).
    change (List.last (y2 :: y3 :: l) d') with (List.last (y3 :: l) d').
    apply IH. }
  by rewrite (Hd y0 y1).
Qed.

Lemma toy_predict_labels (n_est : Z) (c : split_criterion) (X y xs : list Q) :
  Forall (fun v => v ∈ y) (Toy.predict (Toy.fit n_est c X y) xs).
Proof.
  unfold Toy.predict, Toy.fit. simpl. destruct y as [|y0 y]; [done |].
  apply Forall_fmap, Forall_forall. intros x _. simpl.
  destruct (n_est =? 20); [apply last_elem_of | by left].
Qed.

Lemma compute_basic_mia_best_pair_witness :
  [1%Q] <> [] /\
  forall p : Q * Q,
    p ∈ mia_points Toy.fit Toy.predict_proba1 Toy.predict Toy.roc_auc_score
          [1%Q] [1%Q] [1%Q] [1%Q] ->
    (p.2 <= (compute_basic_mia Toy.fit Toy.predict_proba1 Toy.predict
               Toy.roc_auc_score [1%Q] [1%Q] [1%Q] [1%Q]).2)%Q.
Proof.
  assert (Hne : [1%Q] <> []) by discriminate.
  split; [exact Hne |].
  exact (proj1 (compute_basic_mia_best_pair Toy.fit Toy.predict_proba1 Toy.predict
                  Toy.roc_auc_score toy_predict_labels [1%Q] [1%Q] [1%Q] [1%Q]
                  Hne Hne Hne Hne)).
Defined.

(** ** A concrete run *)

Lemma best_forget_never_updated_witness :
  exists st : run_state,
    run_experiment Toy.forward Toy.autograd Toy.topk Toy.fit Toy.predict_proba1
      Toy.predict Toy.roc_auc_score Toy.cfg Toy.all_right Toy.criterion
      Toy.ones_mask Toy.rng Toy.net = Some st /\
    best_forget st = ∅ /\
    best_forget_acc st = 100%Q /\
    forall (m' : list param) (x : metrics),
      measure Toy.forward Toy.topk Toy.fit Toy.predict_proba1 Toy.predict
        Toy.roc_auc_score m' Toy.all_right Toy.criterion = Some x ->
      Qgtb (forget_acc x) (best_forget_acc st) = false.
Proof.
  eexists. split; [vm_compute; reflexivity |].
  apply (best_forget_never_updated Toy.forward Toy.autograd Toy.topk Toy.fit
           Toy.predict_proba1 Toy.predict Toy.roc_auc_score Toy.cfg Toy.all_right
           Toy.criterion Toy.ones_mask Toy.rng Toy.net).
  vm_compute. reflexivity.
Defined.

(** * Further properties of the engine *)

(** ** Strategies: ranges, failures and coincidences *)

Lemma where__no_hit (idx forget_tensor : list Z) :
  Forall (fun i => i ∉ forget_tensor) idx ->
  forall {A} (ys xs : list A),
    length xs = length idx -> length ys = length idx ->
    where_ (which_is_in idx forget_tensor) ys xs = xs.
Proof.
  induction 1 as [|i idx Hi _ IH]; intros A ys xs Hx Hy.
  - by destruct xs.
  - destruct xs as [|x xs]; [done |]. destruct ys as [|y ys]; [done |].
    unfold where_, which_is_in in *. csimpl.
    rewrite existsb_eqb_elem_of, bool_decide_eq_false_2 by done.
    simpl. f_equal. apply IH; by simplify_eq/=.
Qed.

Lemma where__all_hit (idx forget_tensor : list Z) :
  Forall (fun i => i ∈ forget_tensor) idx ->
  forall {A} (ys xs : list A),
    length xs = length idx -> length ys = length idx ->
    where_ (which_is_in idx forget_tensor) ys xs = ys.
Proof.
  induction 1 as [|i idx Hi _ IH]; intros A ys xs Hx Hy.
  - by destruct ys.
  - destruct xs as [|x xs]; [done |]. destruct ys as [|y ys]; [done |].
    unfold where_, which_is_in in *. csimpl.
    rewrite existsb_eqb_elem_of, bool_decide_eq_true_2 by done.
    simpl. f_equal. apply IH; by simplify_eq/=.
Qed.

Lemma fold_left_Qplus_opp (xs : list Q) :
  forall a b : Q, (b == - a)%Q ->
    (fold_left Qplus (Qopp <$> xs) b == - fold_left Qplus xs a)%Q.
Proof.
  induction xs as [|x xs IH]; intros a b Hab; [done |].
  csimpl. apply IH. rewrite Hab. ring.
Qed.

Lemma mean_opp (xs : list Q) : (mean (Qopp <$> xs) == - mean xs)%Q.
Proof.
  unfold mean, qsum. rewrite length_fmap.
  rewrite (fold_left_Qplus_opp xs 0 0) by done.
  unfold Qdiv. ring.
Qed.

Section StrategiesMore.
Context {Image Output : Type} (forward : list param -> list Image -> Output).

(** After [rand_label] every label of an example to forget is a class index
    in [[0, C)], whatever the label was before and whatever was drawn; so a
    tensor of valid labels stays a tensor of valid labels. *)
Theorem rand_label_labels_in_range (m : list param) (image : list Image)
    (target : positive) (idx : list Z) (criterion : Output -> list Z -> list Q)
    (ld : loader Image) (draw : nat -> Z) (h : gmap positive (list Z))
    (tgt : list Z) :
  h !! target = Some tgt ->
  length idx = length tgt ->
  1 < nclasses ld ->
  exists (loss : Q) (tgt' : list Z),
    rand_label forward m image target idx criterion ld draw h
    = Some (loss, <[target := tgt']> h) /\
    (forall (k : nat) (i t' : Z),
        idx !! k = Some i -> i ∈ FORGET (ds ld) -> tgt' !! k = Some t' ->
        0 <= t' < nclasses ld) /\
    (Forall (fun t => 0 <= t < nclasses ld) tgt ->
     Forall (fun t => 0 <= t < nclasses ld) tgt').
Proof.
  intros Hh Hlen HC.
  exists (mean (criterion (forward m image) (relabelled idx ld draw tgt))),
    (relabelled idx ld draw tgt).
  split; [by apply rand_label_run |].
  assert (Hin : forall (k : nat) (i t' : Z),
             idx !! k = Some i -> i ∈ FORGET (ds ld) ->
             relabelled idx ld draw tgt !! k = Some t' -> 0 <= t' < nclasses ld).
  { intros k i t' Hi Hf Ht'.
    destruct (tgt !! k) as [t|] eqn:Ht.
    - rewrite (lookup_relabelled idx ld draw tgt k i t Hi Ht) in Ht'.
      rewrite bool_decide_eq_true_2 in Ht' by done. simplify_eq.
      unfold rem64. apply Z.mod_pos_bound. lia.
    - apply lookup_ge_None in Ht. apply lookup_lt_Some in Hi. lia. }
  split; [exact Hin |].
  intros Hvalid. apply Forall_lookup. intros k t' Ht'.
  assert (Hk : (k < length idx)%nat).
  { apply lookup_lt_Some in Ht'. rewrite length_relabelled in Ht' by done. lia. }
  destruct (lookup_lt_is_Some_2 idx k Hk) as [i Hi].
  destruct (lookup_lt_is_Some_2 tgt k ltac:(lia)) as [t Ht].
  destruct (decide (i ∈ FORGET (ds ld))) as [Hf|Hf]; [by eapply Hin |].
  rewrite (lookup_relabelled idx ld draw tgt k i t Hi Ht) in Ht'.
  rewrite bool_decide_eq_false_2 in Ht' by done. simplify_eq.
  by apply (proj1 (Forall_lookup _ _) Hvalid k).
Qed.

(** On a dataset with fewer than two classes [rand_label] raises on every
    batch, also on a batch with no example to forget: the draw from the
    empty range [[1, C)] comes before the mask is used. *)
Theorem rand_label_needs_two_classes (m : list param) (image : list Image)
    (target : positive) (idx : list Z) (criterion : Output -> list Z -> list Q)
    (ld : loader Image) (draw : nat -> Z) (h : gmap positive (list Z)) :
  nclasses ld <= 1 ->
  rand_label forward m image target idx criterion ld draw h = None.
Proof.
  intros HC. unfold rand_label, randint. fold (nclasses ld).
  destruct (h !! target) as [tgt|]; [| done]. csimpl.
  by destruct (Z.leb_spec (nclasses ld) 1) as [_|]; [| lia].
Qed.

(** On a batch with no example to forget, [rand_label] returns what
    [retrain] returns and leaves the store as it was. *)
Theorem rand_label_without_forget_is_retrain (m : list param) (image : list Image)
    (target : positive) (idx : list Z) (criterion : Output -> list Z -> list Q)
    (ld : loader Image) (draw : nat -> Z) (h : gmap positive (list Z))
    (tgt : list Z) :
  h !! target = Some tgt ->
  length idx = length tgt ->
  1 < nclasses ld ->
  Forall (fun i => i ∉ FORGET (ds ld)) idx ->
  rand_label forward m image target idx criterion ld draw h
  = retrain forward m image target idx criterion ld draw h /\
  retrain forward m image target idx criterion ld draw h
  = Some (mean (criterion (forward m image) tgt), h).
Proof.
  intros Hh Hlen HC Hno.
  assert (Hre : retrain forward m image target idx criterion ld draw h
                = Some (mean (criterion (forward m image) tgt), h)).
  { unfold retrain. by rewrite Hh. }
  split; [| done]. rewrite Hre.
  rewrite (rand_label_run forward m image target idx criterion ld draw h tgt)
    by done.
  unfold relabelled. rewrite where__no_hit; [by rewrite insert_id | done | done |].
  rewrite length_zip_with_l_eq; [done |]. by rewrite length_fmap, length_seq.
Qed.

(** On a batch with no example to forget, [grad_ascent] returns what
    [retrain] returns. *)
Theorem grad_ascent_without_forget_is_retrain (m : list param) (image : list Image)
    (target : positive) (idx : list Z) (criterion : Output -> list Z -> list Q)
    (ld : loader Image) (draw : nat -> Z) (h : gmap positive (list Z))
    (tgt : list Z) :
  h !! target = Some tgt ->
  length idx = length (criterion (forward m image) tgt) ->
  Forall (fun i => i ∉ FORGET (ds ld)) idx ->
  grad_ascent forward m image target idx criterion ld draw h
  = retrain forward m image target idx criterion ld draw h.
Proof.
  intros Hh Hlen Hno.
  rewrite (grad_ascent_run forward m image target idx criterion ld draw h tgt)
    by done.
  unfold retrain, signed_losses. rewrite Hh. csimpl.
  rewrite where__no_hit; [done | done | done |]. by rewrite length_fmap.
Qed.

(** On a batch made only of examples to forget, [grad_ascent] returns what
    [grad_ascent_small] returns. *)
Theorem grad_ascent_on_forget_is_grad_ascent_small (m : list param)
    (image : list Image) (target : positive) (idx : list Z)
    (criterion : Output -> list Z -> list Q) (ld : loader Image)
    (draw : nat -> Z) (h : gmap positive (list Z)) (tgt : list Z) :
  h !! target = Some tgt ->
  length idx = length (criterion (forward m image) tgt) ->
  Forall (fun i => i ∈ FORGET (ds ld)) idx ->
  grad_ascent forward m image target idx criterion ld draw h
  = grad_ascent_small forward m image target idx criterion ld draw h.
Proof.
  intros Hh Hlen Hall.
  rewrite (grad_ascent_run forward m image target idx criterion ld draw h tgt)
    by done.
  unfold grad_ascent_small, signed_losses. rewrite Hh. csimpl.
  rewrite where__all_hit; [done | done | done |]. by rewrite length_fmap.
Qed.

(** The loss of [grad_ascent_small] is the opposite of the loss of
    [retrain] on the same batch, and neither touches the store. *)
Theorem grad_ascent_small_is_opposite_of_retrain (m : list param)
    (image : list Image) (target : positive) (idx : list Z)
    (criterion : Output -> list Z -> list Q) (ld : loader Image)
    (draw : nat -> Z) (h : gmap positive (list Z)) (tgt : list Z) :
  h !! target = Some tgt ->
  exists l l' : Q,
    retrain forward m image target idx criterion ld draw h = Some (l, h) /\
    grad_ascent_small forward m image target idx criterion ld draw h = Some (l', h) /\
    (l' == - l)%Q.
Proof.
  intros Hh. unfold retrain, grad_ascent_small. rewrite Hh. csimpl.
  do 2 eexists. split; [done |]. split; [done |]. apply mean_opp.
Qed.

End StrategiesMore.

(** ** Masked update loop: what one iteration does to a parameter *)

Lemma mask_grad_Some (mask : gmap string (list Q)) (p1 p2 : param) :
  mask_grad mask p1 = Some p2 ->
  p_name p2 = p_name p1 /\ p_data p2 = p_data p1 /\
  match mask !! p_name p1 with
  | Some mk =>
      exists g : list Q,
        p_grad p1 = Some g /\ length mk = length g /\
        p_grad p2 = Some (zip_with Qmult g mk)
  | None => p_grad p2 = p_grad p1
  end.
Proof.
  unfold mask_grad, mul_. intros Hrun.
  destruct (mask !! p_name p1) as [mk|]; [| by simplify_eq].
  destruct (p_grad p1) as [g|]; [| done]. csimpl in Hrun.
  destruct (Nat.eqb_spec (length mk) (length g)) as [Hlen|]; [| done].
  csimpl in Hrun. simplify_eq. simpl. split; [done |]. split; [done |].
  by exists g.
Qed.

Lemma mapM_ext_in {A B} (f g : A -> option B) (l : list A) :
  (forall x, x ∈ l -> f x = g x) -> mapM f l = mapM g l.
Proof.
  induction l as [|x l IH]; intros Hfg; [done |]. csimpl.
  rewrite (Hfg x) by by left.
  destruct (g x) as [y|]; [| done]. csimpl.
  f_equal. apply IH. intros z Hz. apply Hfg. by right.
Qed.

Lemma sgd_param_name (LR : Q) (p : param) : p_name (sgd_param LR p) = p_name p.
Proof. unfold sgd_param. by destruct (p_grad p). Qed.

Section MaskedLoopMore.
Context {Image Output : Type}.
Context (autograd : (list param -> option Q) -> list param -> nat -> list Q).

(** One iteration, parameter by parameter: the gradient buffer filled by
    the backward pass is multiplied by the mask entry of the parameter when
    masking is on and the entry exists, the SGD step subtracts [LR] times
    the result, and the buffer is cleared. *)
Lemma unlearn_batch_lookup (method : method_t Image Output)
    (criterion : Output -> list Z -> list Q) (ld : loader Image)
    (USE_MASK : bool) (mask : gmap string (list Q)) (LR : Q)
    (m m' : list param) (data : batch Image) (draw : nat -> Z)
    (k : nat) (p : param) :
  unlearn_batch autograd method criterion ld USE_MASK mask LR m data draw = Some m' ->
  m !! k = Some p ->
  exists g : list Q,
    p_grad (accumulate
              (autograd
                 (fun m0 => fst <$> method m0 (image data) target_loc (idx data)
                                      criterion ld draw {[target_loc := label data]})
                 m k) p) = Some g /\
    match (if USE_MASK then mask !! p_name p else None) with
    | Some mk =>
        length mk = length g /\
        m' !! k = Some {| p_name := p_name p;
                          p_data := zip_with (fun d gi => (d - LR * gi)%Q)
                                      (p_data p) (zip_with Qmult g mk);
                          p_grad := None |}
    | None =>
        m' !! k = Some {| p_name := p_name p;
                          p_data := zip_with (fun d gi => (d - LR * gi)%Q)
                                      (p_data p) g;
                          p_grad := None |}
    end.
Proof.
  intros Hrun Hk. unfold unlearn_batch in Hrun.
  destruct (method m _ _ _ _ _ _ _) as [loss|]; [| done].
  cbv zeta in Hrun. csimpl in Hrun.
  match type of Hrun with
  | context [backward autograd ?f m] => set (loss_fn := f) in *
  end.
  assert (Hb : backward autograd loss_fn m !! k
               = Some (accumulate (autograd loss_fn m k) p)).
  { unfold backward. by rewrite list_lookup_imap, Hk. }
  eexists. split; [reflexivity |].
  unfold zero_grad, optimizer_step in Hrun.
  destruct USE_MASK; simpl in Hrun.
  - destruct (mapM _ _) as [m2|] eqn:Hmask; [| done]. simpl in Hrun. simplify_eq.
    apply mapM_Some_1 in Hmask.
    destruct (Forall2_lookup_l _ _ _ _ _ Hmask Hb) as (p2 & Hk2 & Hp2).
    apply mask_grad_Some in Hp2 as (Hname & Hdata & Hgrad). simpl in *.
    rewrite !list_lookup_fmap, Hk2. simpl.
    destruct (mask !! p_name p) as [mk|].
    + destruct Hgrad as (g & [= <-] & Hlen & Hg2). split; [done |].
      unfold sgd_param, set_grad. rewrite Hg2. simpl. by rewrite Hname, Hdata.
    + unfold sgd_param, set_grad. rewrite Hgrad. simpl. by rewrite Hname, Hdata.
  - simplify_eq. rewrite !list_lookup_fmap, Hb. done.
Qed.

(** An iteration keeps the number of parameters and their names, and it
    leaves every gradient buffer empty; when the buffers were empty before and
    gradients have the shape of their parameter, it keeps the shape of every
    parameter too. *)
Theorem unlearn_batch_keeps_names_and_shapes (method : method_t Image Output)
    (criterion : Output -> list Z -> list Q) (ld : loader Image)
    (USE_MASK : bool) (mask : gmap string (list Q)) (LR : Q)
    (m m' : list param) (data : batch Image) (draw : nat -> Z) :
  unlearn_batch autograd method criterion ld USE_MASK mask LR m data draw = Some m' ->
  p_name <$> m' = p_name <$> m /\
  Forall (fun p => p_grad p = None) m' /\
  ((forall (f : list param -> option Q) (m0 : list param) (k : nat) (p : param),
       m0 !! k = Some p -> length (autograd f m0 k) = length (p_data p)) ->
   Forall (fun p => p_grad p = None) m ->
   (fun p => length (p_data p)) <$> m' = (fun p => length (p_data p)) <$> m).
Proof.
  intros Hrun.
  assert (Hlen : length m' = length m).
  { unfold unlearn_batch in Hrun.
    destruct (method m _ _ _ _ _ _ _) as [loss|]; [| done].
    cbv zeta in Hrun. csimpl in Hrun.
    unfold zero_grad, optimizer_step, mask_gradients in Hrun.
    destruct USE_MASK; simpl in Hrun.
    - destruct (mapM _ _) as [m2|] eqn:Hmask; [| done]. simpl in Hrun. simplify_eq.
      apply mapM_Some_1, Forall2_length in Hmask.
      rewrite !length_fmap, <- Hmask. unfold backward. by rewrite length_imap.
    - simplify_eq. rewrite !length_fmap. unfold backward. by rewrite length_imap. }
  assert (Hlook : forall (k : nat) (p : param), m !! k = Some p ->
            exists p', m' !! k = Some p' /\ p_name p' = p_name p /\
                       p_grad p' = None /\
                       ((forall (f : list param -> option Q) (m0 : list param)
                                (k : nat) (p : param),
                            m0 !! k = Some p ->
                            length (autograd f m0 k) = length (p_data p)) ->
                        p_grad p = None ->
                        length (p_data p') = length (p_data p))).
  { intros k p Hk.
    destruct (unlearn_batch_lookup _ _ _ _ _ _ _ _ _ _ k p Hrun Hk) as (g & Hg & Hcase).
    destruct (if USE_MASK then mask !! p_name p else None) as [mk|].
    - destruct Hcase as [Hmk Hk']. eexists. split; [exact Hk' |]. simpl.
      split; [done |]. split; [done |]. intros Hshape Hnone.
      unfold accumulate in Hg. rewrite Hnone in Hg. simpl in Hg. simplify_eq.
      rewrite length_zip_with_l_eq; [done |].
      rewrite length_zip_with_l_eq by done. symmetry. by apply Hshape.
    - eexists. split; [exact Hcase |]. simpl.
      split; [done |]. split; [done |]. intros Hshape Hnone.
      unfold accumulate in Hg. rewrite Hnone in Hg. simpl in Hg. simplify_eq.
      rewrite length_zip_with_l_eq; [done |]. symmetry. by apply Hshape. }
  split; [| split].
  - apply list_eq_same_length with (length m); rewrite ?length_fmap; [done .. |].
    intros k x y Hlt. rewrite !list_lookup_fmap. intros Hx Hy.
    destruct (m !! k) as [p|] eqn:Hk; [| done].
    destruct (Hlook k p Hk) as (p' & Hk' & Hname & _).
    rewrite Hk' in Hx. simpl in *. congruence.
  - apply Forall_lookup. intros k p' Hk'.
    destruct (lookup_lt_is_Some_2 m k) as [p Hk].
    { apply lookup_lt_Some in Hk'. lia. }
    destruct (Hlook k p Hk) as (p'' & Hk'' & _ & Hnone & _). congruence.
  - intros Hshape Hnone.
    apply list_eq_same_length with (length m); rewrite ?length_fmap; [done .. |].
    intros k x y Hlt. rewrite !list_lookup_fmap. intros Hx Hy.
    destruct (m !! k) as [p|] eqn:Hk; [| done].
    destruct (Hlook k p Hk) as (p' & Hk' & _ & _ & Hdata).
    rewrite Hk' in Hx. simpl in *. simplify_eq.
    apply Hdata; [done |]. by apply (proj1 (Forall_lookup _ _) Hnone k).
Qed.

End MaskedLoopMore.

Lemma mask_gradients_foreign_entry (USE_MASK : bool) (mask : gmap string (list Q))
    (name : string) (mk : list Q) (m : list param) :
  name ∉ p_name <$> m ->
  mask_gradients USE_MASK (<[name := mk]> mask) m = mask_gradients USE_MASK mask m.
Proof.
  intros Hname. unfold mask_gradients. destruct USE_MASK; [| done].
  apply mapM_ext_in. intros p Hp. unfold mask_grad.
  rewrite lookup_insert_ne; [done |].
  intros ->. apply Hname. apply list_elem_of_fmap. by exists p.
Qed.

Section MaskEntries.
Context {Image Output : Type}.
Context (autograd : (list param -> option Q) -> list param -> nat -> list Q).

Lemma backward_names (f : list param -> option Q) (m : list param) :
  p_name <$> backward autograd f m = p_name <$> m.
Proof.
  apply list_eq. intros k. unfold backward.
  rewrite !list_lookup_fmap, list_lookup_imap. by destruct (m !! k).
Qed.

Lemma unlearn_batch_names (method : method_t Image Output)
    (criterion : Output -> list Z -> list Q) (ld : loader Image)
    (USE_MASK : bool) (mask : gmap string (list Q)) (LR : Q)
    (m m' : list param) (data : batch Image) (draw : nat -> Z) :
  unlearn_batch autograd method criterion ld USE_MASK mask LR m data draw = Some m' ->
  p_name <$> m' = p_name <$> m.
Proof.
  intros Hrun. apply list_eq. intros k. rewrite !list_lookup_fmap.
  destruct (m !! k) as [p|] eqn:Hk.
  - destruct (unlearn_batch_lookup autograd _ _ _ _ _ _ _ _ _ _ k p Hrun Hk)
      as (g & _ & Hcase).
    destruct (if USE_MASK then mask !! p_name p else None) as [mk|].
    + destruct Hcase as [_ ->]. done.
    + by rewrite Hcase.
  - assert (Hlen : length m' = length m).
    { unfold unlearn_batch in Hrun.
      destruct (method m _ _ _ _ _ _ _) as [loss|]; [| done].
      cbv zeta in Hrun. csimpl in Hrun.
      unfold zero_grad, optimizer_step, mask_gradients in Hrun.
      destruct USE_MASK; simpl in Hrun.
      - destruct (mapM _ _) as [m2|] eqn:Hmask; [| done]. simpl in Hrun. simplify_eq.
        apply mapM_Some_1, Forall2_length in Hmask.
        rewrite !length_fmap, <- Hmask. unfold backward. by rewrite length_imap.
      - simplify_eq. rewrite !length_fmap. unfold backward. by rewrite length_imap. }
    apply lookup_ge_None in Hk. rewrite <- Hlen in Hk.
    apply lookup_ge_None in Hk. by rewrite Hk.
Qed.

(** With masking on, an entry of a parameter whose mask value is 0 keeps
    its value through an iteration, and an entry whose mask value is 1
    receives the plain SGD update [d - LR * g]. *)
Theorem masked_update_freezes_zero_entries (method : method_t Image Output)
    (criterion : Output -> list Z -> list Q) (ld : loader Image)
    (mask : gmap string (list Q)) (LR : Q)
    (m m' : list param) (data : batch Image) (draw : nat -> Z)
    (k : nat) (p : param) (mk : list Q) :
  Forall (fun p => p_grad p = None) m ->
  unlearn_batch autograd method criterion ld true mask LR m data draw = Some m' ->
  m !! k = Some p ->
  mask !! p_name p = Some mk ->
  exists p' : param,
    m' !! k = Some p' /\
    forall (j : nat) (d gj b : Q),
      p_data p !! j = Some d ->
      autograd
        (fun m0 => fst <$> method m0 (image data) target_loc (idx data)
                             criterion ld draw {[target_loc := label data]})
        m k !! j = Some gj ->
      mk !! j = Some b ->
      exists d' : Q,
        p_data p' !! j = Some d' /\
        ((b == 0)%Q -> (d' == d)%Q) /\
        ((b == 1)%Q -> (d' == d - LR * gj)%Q).
Proof.
  intros Hnone Hrun Hk Hmk.
  destruct (unlearn_batch_lookup autograd _ _ _ _ _ _ _ _ _ _ k p Hrun Hk)
    as (g & Hg & Hcase).
  rewrite Hmk in Hcase. destruct Hcase as [Hlen Hk'].
  unfold accumulate in Hg.
  rewrite (proj1 (Forall_lookup _ _) Hnone k p Hk) in Hg. simpl in Hg.
  simplify_eq.
  eexists. split; [exact Hk' |]. simpl.
  intros j d gj b Hd Hgj Hb.
  exists (d - LR * (gj * b))%Q. split.
  - rewrite lookup_zip_with, Hd. simpl.
    rewrite lookup_zip_with, Hgj. simpl. by rewrite Hb.
  - split; intros ->; ring.
Qed.

(** A mask entry whose name is not the name of a parameter of the model has
    no effect on the update loop. *)
Theorem foreign_mask_entry_is_ignored (method : method_t Image Output)
    (criterion : Output -> list Z -> list Q) (ld : loader Image)
    (USE_MASK : bool) (mask : gmap string (list Q)) (name : string) (mk : list Q)
    (LR : Q) (m : list param) (bs : list (batch Image))
    (draws : nat -> nat -> Z) (k : nat) :
  name ∉ p_name <$> m ->
  unlearn_batches autograd method criterion ld USE_MASK (<[name := mk]> mask)
    LR m bs draws k
  = unlearn_batches autograd method criterion ld USE_MASK mask LR m bs draws k.
Proof.
  revert m k. induction bs as [|data bs IH]; intros m k Hname; [done |].
  simpl.
  assert (Hstep :
    unlearn_batch autograd method criterion ld USE_MASK (<[name := mk]> mask)
      LR m data (draws k)
    = unlearn_batch autograd method criterion ld USE_MASK mask LR m data (draws k)).
  { unfold unlearn_batch.
    destruct (method m _ _ _ _ _ _ _) as [loss|]; [| done].
    cbv zeta. rewrite mask_gradients_foreign_entry; [done |].
    by rewrite backward_names. }
  rewrite Hstep.
  destruct (unlearn_batch autograd method criterion ld USE_MASK mask LR m data (draws k))
    as [m1|] eqn:Hrun; [| done].
  simpl. apply IH. by rewrite (unlearn_batch_names _ _ _ _ _ _ _ _ _ _ Hrun).
Qed.

End MaskEntries.

(** ** Evaluator: failures, keys and the values it stores *)

Section EvaluatorMore.
Context {Image Output : Type}.
Context (forward : list param -> list Image -> Output).
Context (topk : Output -> nat -> list (list Z)).

Lemma elem_of_zip_lookup (loaders : list (loader Image)) (names : list string)
    (ld : loader Image) (name : string) :
  (ld, name) ∈ zip loaders names <->
  exists k : nat, loaders !! k = Some ld /\ names !! k = Some name.
Proof.
  rewrite list_elem_of_lookup. unfold zip. split.
  - intros (k & Hk). apply lookup_zip_with_Some in Hk.
    destruct Hk as (x & y & Heq & Hx & Hy). simplify_eq. eauto.
  - intros (k & Hl & Hn). exists k. apply lookup_zip_with_Some. eauto.
Qed.

Lemma eval_splits_None (m : list param) (criterion : Output -> list Z -> list Q)
    (zipped : list (loader Image * string)) :
  forall (tot_acc : Q) (accs : gmap string Q) (losses : gmap string (list Q)),
    eval_splits forward topk m criterion zipped tot_acc accs losses = None <->
    exists (ld : loader Image) (name : string),
      (ld, name) ∈ zipped /\ dataset_len ld = O.
Proof.
  induction zipped as [|[ld0 name0] zipped IH]; intros tot_acc accs losses; simpl.
  - split; [done |]. intros (ld & name & Hin & _). by apply elem_of_nil in Hin.
  - destruct (dataset_len ld0) as [|n] eqn:Hn.
    + split; [| done]. intros _. exists ld0, name0. split; [by left | done].
    + rewrite IH. split.
      * intros (ld & name & Hin & Hz). exists ld, name. split; [by right | done].
      * intros (ld & name & Hin & Hz). exists ld, name. split; [| done].
        apply elem_of_cons in Hin as [Heq|Hin]; [| done]. simplify_eq. lia.
Qed.

(** [eval_unlearning] raises exactly when one of the splits it is given a
    name for has an empty dataset. *)
Theorem eval_unlearning_fails_iff_empty_split (m : list param)
    (loaders : list (loader Image)) (names : list string)
    (criterion : Output -> list Z -> list Q) :
  eval_unlearning forward topk m loaders names criterion = None <->
  exists (k : nat) (ld : loader Image) (name : string),
    loaders !! k = Some ld /\ names !! k = Some name /\ dataset_len ld = O.
Proof.
  unfold eval_unlearning. rewrite eval_splits_None. split.
  - intros (ld & name & Hin & Hz). apply elem_of_zip_lookup in Hin as (k & Hl & Hn).
    by exists k, ld, name.
  - intros (k & ld & name & Hl & Hn & Hz). exists ld, name. split; [| done].
    apply elem_of_zip_lookup. eauto.
Qed.

Lemma eval_splits_keys (m : list param) (criterion : Output -> list Z -> list Q)
    (zipped : list (loader Image * string)) :
  forall (tot_acc : Q) (accs accs' : gmap string Q)
         (losses losses' : gmap string (list Q)),
    eval_splits forward topk m criterion zipped tot_acc accs losses
    = Some (accs', losses') ->
    forall name : string,
      (is_Some (accs' !! name) <-> is_Some (accs !! name) \/ name ∈ zipped.*2) /\
      (is_Some (losses' !! name) <-> is_Some (losses !! name) \/ name ∈ zipped.*2).
Proof.
  induction zipped as [|[ld0 name0] zipped IH];
    intros tot_acc accs accs' losses losses' Hrun name; simpl in Hrun.
  - simplify_eq. split; (split; [by left |]); intros [?|Hin]; try done;
      by apply elem_of_nil in Hin.
  - destruct (dataset_len ld0) as [|n] eqn:Hn; [done |].
    destruct (IH _ _ _ _ _ Hrun name) as [Ha Hl].
    rewrite Ha, Hl. csimpl. rewrite !elem_of_cons.
    destruct (decide (name = name0)) as [->|Hne].
    + rewrite !lookup_insert_eq. split; split; intros _;
        solve [right; by left | left; by eexists].
    + rewrite !lookup_insert_ne by (by intros ->).
      split; split; intros [?|Hin]; auto; destruct Hin; auto; done.
Qed.

(** The two dictionaries [eval_unlearning] returns have the same keys: the
    names paired with a loader by [zip]; loaders without a name and names
    without a loader are dropped. *)
Theorem eval_unlearning_keys (m : list param)
    (loaders : list (loader Image)) (names : list string)
    (criterion : Output -> list Z -> list Q)
    (accs : gmap string Q) (losses : gmap string (list Q)) :
  eval_unlearning forward topk m loaders names criterion = Some (accs, losses) ->
  forall name : string,
    (is_Some (accs !! name) <->
     exists (k : nat) (ld : loader Image),
       loaders !! k = Some ld /\ names !! k = Some name) /\
    (is_Some (losses !! name) <->
     exists (k : nat) (ld : loader Image),
       loaders !! k = Some ld /\ names !! k = Some name).
Proof.
  unfold eval_unlearning. intros Hrun name.
  destruct (eval_splits_keys _ _ _ _ _ _ _ _ Hrun name) as [Ha Hl].
  assert (Hin : name ∈ (zip loaders names).*2 <->
                exists (k : nat) (ld : loader Image),
                  loaders !! k = Some ld /\ names !! k = Some name).
  { rewrite list_elem_of_fmap. split.
    - intros ([ld name'] & -> & Hz). apply elem_of_zip_lookup in Hz as (k & ? & ?).
      by exists k, ld.
    - intros (k & ld & Hl' & Hn). exists (ld, name). split; [done |].
      apply elem_of_zip_lookup. eauto. }
  rewrite Ha, Hl, !lookup_empty, Hin.
  split; (split; [intros [[? ?]|?]; done | by right]).
Qed.

End EvaluatorMore.

Section EvaluatorValues.
Context {Image Output : Type}.
Context (forward : list param -> list Image -> Output).
Context (topk : Output -> nat -> list (list Z)).

Lemma eval_batches_total (m : list param) (criterion : Output -> list Z -> list Q)
    (bs : list (batch Image)) :
  forall (st : Q * list Q) (q : Q) (z : Z),
    (st.1 == q + inject_Z z)%Q ->
    ((fold_left (eval_batch forward topk m criterion) bs st).1
     == q + inject_Z
              (fold_left Z.add
                 ((fun b => compute_topk topk (label b) (forward m (image b)) 1)
                    <$> bs) z))%Q.
Proof.
  induction bs as [|b bs IH]; intros st q z Hst; [done |].
  csimpl. apply IH. simpl. rewrite Hst, inject_Z_plus. ring.
Qed.

(** What [eval_splits] stores for the first split it sees and for two
    consecutive splits, and what it leaves alone. *)
Lemma eval_splits_accs (m : list param) (criterion : Output -> list Z -> list Q)
    (zipped : list (loader Image * string)) :
  NoDup zipped.*2 ->
  forall (tot_acc : Q) (accs accs' : gmap string Q)
         (losses losses' : gmap string (list Q)),
    eval_splits forward topk m criterion zipped tot_acc accs losses
    = Some (accs', losses') ->
    (forall name : string, name ∉ zipped.*2 -> accs' !! name = accs !! name) /\
    (forall (ld : loader Image) (name : string),
        zipped !! O = Some (ld, name) ->
        exists a : Q,
          accs' !! name = Some a /\
          (a == (tot_acc + inject_Z (top1_correct forward topk m ld))
                / inject_Z (Z.of_nat (dataset_len ld)))%Q) /\
    (forall (k : nat) (ld ld' : loader Image) (name name' : string),
        zipped !! k = Some (ld, name) -> zipped !! S k = Some (ld', name') ->
        exists a a' : Q,
          accs' !! name = Some a /\ accs' !! name' = Some a' /\
          (a' == (a + inject_Z (top1_correct forward topk m ld'))
                 / inject_Z (Z.of_nat (dataset_len ld')))%Q).
Proof.
  induction zipped as [|[ld0 name0] zipped IH];
    intros Hnd tot_acc accs accs' losses losses' Hrun; simpl in Hrun.
  - simplify_eq. split; [done |]. split; [done |]. intros k ld ld' name name' Hk. done.
  - apply NoDup_cons in Hnd as [Hfresh Hnd]. simpl in Hfresh.
    destruct (dataset_len ld0) as [|n] eqn:Hn; [done |].
    destruct (IH Hnd _ _ _ _ _ Hrun) as (Hframe & Hfirst & Hnext).
    assert (Hhead : exists a : Q,
               accs' !! name0 = Some a /\
               (a == (tot_acc + inject_Z (top1_correct forward topk m ld0))
                     / inject_Z (Z.of_nat (dataset_len ld0)))%Q).
    { eexists. split.
      - rewrite (Hframe _ Hfresh). apply lookup_insert_eq.
      - rewrite Hn.
        rewrite (eval_batches_total m criterion (batches ld0) (tot_acc, []) tot_acc 0).
        + reflexivity.
        + simpl. change (inject_Z 0) with 0%Q. ring. }
    split; [| split].
    + intros name Hname. csimpl in Hname.
      apply not_elem_of_cons in Hname as [Hne Hname].
      rewrite (Hframe _ Hname). by apply lookup_insert_ne.
    + intros ld name [= <- <-]. exact Hhead.
    + intros [|k] ld ld' name name' Hk Hk'; simpl in Hk, Hk'.
      * simplify_eq. destruct (Hfirst ld' name' Hk') as (a' & Ha' & Heq).
        eexists _, a'. split; [| split; [exact Ha' |]].
        -- rewrite (Hframe _ Hfresh). apply lookup_insert_eq.
        -- exact Heq.
      * by eapply Hnext.
Qed.

(** The accuracy [eval_unlearning] stores for the first split is the top-1
    accuracy of that split. *)
Theorem eval_unlearning_first_split_accuracy (m : list param)
    (ld : loader Image) (loaders : list (loader Image))
    (name : string) (names : list string)
    (criterion : Output -> list Z -> list Q)
    (accs : gmap string Q) (losses : gmap string (list Q)) :
  NoDup (name :: names) ->
  eval_unlearning forward topk m (ld :: loaders) (name :: names) criterion
  = Some (accs, losses) ->
  exists a : Q,
    accs !! name = Some a /\ (a == top1_accuracy forward topk m ld)%Q.
Proof.
  unfold eval_unlearning. intros Hnd Hrun.
  apply (eval_splits_accs m criterion) in Hrun as (_ & Hfirst & _).
  - destruct (Hfirst ld name eq_refl) as (a & Ha & Heq).
    exists a. split; [done |]. rewrite Heq. unfold top1_accuracy, top1_correct.
    cbv zeta. apply Qdiv_comp; [ring | reflexivity].
  - by apply (NoDup_zip_snd (ld :: loaders) (name :: names)).
Qed.

(** For two consecutive splits, the value [eval_unlearning] stores for the
    second is the value stored for the first plus the number of correct
    top-1 predictions of the second, over the size of the second. *)
Theorem eval_unlearning_accuracy_recurrence (m : list param)
    (loaders : list (loader Image)) (names : list string)
    (criterion : Output -> list Z -> list Q)
    (accs : gmap string Q) (losses : gmap string (list Q))
    (k : nat) (ld ld' : loader Image) (name name' : string) :
  NoDup names ->
  eval_unlearning forward topk m loaders names criterion = Some (accs, losses) ->
  loaders !! k = Some ld -> names !! k = Some name ->
  loaders !! S k = Some ld' -> names !! S k = Some name' ->
  exists a a' : Q,
    accs !! name = Some a /\ accs !! name' = Some a' /\
    (a' == (a + inject_Z (top1_correct forward topk m ld'))
           / inject_Z (Z.of_nat (dataset_len ld')))%Q.
Proof.
  unfold eval_unlearning. intros Hnd Hrun Hl Hn Hl' Hn'.
  apply (eval_splits_accs m criterion) in Hrun as (_ & _ & Hnext);
    [| by apply NoDup_zip_snd].
  apply (Hnext k ld ld' name name'); unfold zip; apply lookup_zip_with_Some; eauto.
Qed.

End EvaluatorValues.

(** ** [compute_topk]: bounds *)

Lemma count_true_cons (b : bool) (bs : list bool) :
  count_true (b :: bs) = ((if b then 1 else 0) + count_true bs)%nat.
Proof.
  unfold count_true. destruct b.
  - by rewrite filter_cons_True.
  - by rewrite filter_cons_False.
Qed.

Lemma count_true_app (xs ys : list bool) :
  count_true (xs ++ ys) = (count_true xs + count_true ys)%nat.
Proof. unfold count_true. by rewrite filter_app, length_app. Qed.

Lemma count_true_absent (l : Z) (row : list Z) :
  l ∉ row -> forall k : nat, count_true (zip_with Z.eqb (replicate k l) row) = O.
Proof.
  induction row as [|r row IH]; intros Hl k.
  - by destruct k.
  - destruct k as [|k]; [done |]. csimpl. rewrite count_true_cons.
    apply not_elem_of_cons in Hl as [Hne Hl].
    destruct (Z.eqb_spec l r) as [|_]; [done |]. simpl. by apply IH.
Qed.

(** A label matches at most one index of a row without duplicates. *)
Lemma count_true_NoDup (l : Z) (row : list Z) :
  NoDup row ->
  forall k : nat, (count_true (zip_with Z.eqb (replicate k l) row) <= 1)%nat.
Proof.
  induction 1 as [|r row Hr _ IH]; intros k.
  - destruct k; simpl; unfold count_true; simpl; lia.
  - destruct k as [|k]; [unfold count_true; simpl; lia |].
    csimpl. rewrite count_true_cons.
    destruct (Z.eqb_spec l r) as [->|_].
    + rewrite count_true_absent by done. lia.
    + simpl. apply IH.
Qed.

Lemma count_rows_bound (k : nat) (labels : list Z) :
  forall rows : list (list Z),
    Forall NoDup rows ->
    (count_true
       (concat (zip_with (zip_with Z.eqb) ((fun l => replicate k l) <$> labels) rows))
     <= length labels)%nat.
Proof.
  induction labels as [|l labels IH]; intros rows Hrows.
  - unfold count_true. simpl. lia.
  - destruct rows as [|row rows]; [unfold count_true; simpl; lia |].
    apply Forall_cons in Hrows as [Hrow Hrows].
    csimpl. rewrite count_true_app.
    pose proof (count_true_NoDup l row Hrow k). specialize (IH rows Hrows). lia.
Qed.

(** Since the indices [topk] returns for an example are distinct,
    [compute_topk] counts every example at most once: its result lies
    between 0 and the number of labels of the batch, for every [k]. *)
Theorem compute_topk_at_most_batch_size {Output : Type}
    (topk : Output -> nat -> list (list Z)) (labels : list Z) (outputs : Output)
    (k : nat) :
  Forall NoDup (topk outputs k) ->
  0 <= compute_topk topk labels outputs k <= Z.of_nat (length labels).
Proof.
  intros Hrows. unfold compute_topk.
  pose proof (count_rows_bound k labels (topk outputs k) Hrows). lia.
Qed.

(** ** Attacker: ranges *)

Lemma qsum_indicator_nonneg (l : list Q) :
  Forall (fun v => v = 1%Q \/ v = 0%Q) l ->
  forall a : Q, (0 <= a)%Q -> (0 <= fold_left Qplus l a)%Q.
Proof.
  induction 1 as [|v l Hv _ IH]; intros a Ha; [done |].
  csimpl. apply IH. destruct Hv as [-> | ->]; lra.
Qed.

Lemma mean_indicator_nonneg (l : list Q) :
  Forall (fun v => v = 1%Q \/ v = 0%Q) l -> (0 <= mean l)%Q.
Proof.
  intros Hl. unfold mean, qsum. apply Qdiv_nonneg.
  - by apply qsum_indicator_nonneg.
  - apply inject_Z_nonneg. lia.
Qed.

Section AttackerRanges.
Context {Forest : Type}.
Context (fit : Z -> split_criterion -> list Q -> list Q -> Forest).
Context (predict_proba1 predict : Forest -> list Q -> list Q).
Context (roc_auc_score : list Q -> list Q -> Q).

(** A fitted forest predicts class labels it has seen in training, and an
    area under the curve lies in [0, 1]. *)
Hypothesis predict_labels :
  forall (n_est : Z) (c : split_criterion) (X y xs : list Q),
    Forall (fun v => v ∈ y) (predict (fit n_est c X y) xs).
Hypothesis roc_auc_range :
  forall y_true y_score : list Q, (0 <= roc_auc_score y_true y_score <= 1)%Q.

Lemma mia_points_range (retain_losses forget_losses val_losses test_losses : list Q)
    (p : Q * Q) :
  p ∈ mia_points fit predict_proba1 predict roc_auc_score
        retain_losses forget_losses val_losses test_losses ->
  (0 <= p.1 <= 100)%Q /\ (0 <= p.2 <= 100)%Q.
Proof.
  unfold mia_points. intros ([n_est c] & -> & _)%list_elem_of_fmap.
  unfold mia_point. simpl. split.
  - match goal with
    | |- (0 <= roc_auc_score ?y ?s * 100 <= 100)%Q =>
        pose proof (roc_auc_range y s)
    end. lra.
  - match goal with
    | |- (0 <= (1 - mean ?l) * 100 <= 100)%Q =>
        assert (Hl : Forall (fun v => v = 1%Q \/ v = 0%Q) l)
    end.
    { eapply Forall_impl; [apply predict_labels |].
      intros v [Hv|Hv]%elem_of_app; apply elem_of_replicate in Hv as [-> _]; auto. }
    pose proof (mean_indicator_le_1 _ Hl). pose proof (mean_indicator_nonneg _ Hl).
    lra.
Qed.

(** Both values returned by [compute_basic_mia] lie in [0, 100]. *)
Theorem compute_basic_mia_range
    (retain_losses forget_losses val_losses test_losses : list Q) :
  (0 <= (compute_basic_mia fit predict_proba1 predict roc_auc_score
           retain_losses forget_losses val_losses test_losses).1 <= 100)%Q /\
  (0 <= (compute_basic_mia fit predict_proba1 predict roc_auc_score
           retain_losses forget_losses val_losses test_losses).2 <= 100)%Q.
Proof.
  change (compute_basic_mia fit predict_proba1 predict roc_auc_score
            retain_losses forget_losses val_losses test_losses)
    with (fold_left mia_update
            (mia_points fit predict_proba1 predict roc_auc_score
               retain_losses forget_losses val_losses test_losses) (0%Q, 0%Q)).
  destruct (mia_fold_spec
              (mia_points fit predict_proba1 predict roc_auc_score
                 retain_losses forget_losses val_losses test_losses) (0%Q, 0%Q))
    as (_ & _ & [[-> _]|(k & p & Hk & -> & _)]).
  - simpl. lra.
  - apply mia_points_range with retain_losses forget_losses val_losses test_losses.
    by eapply list_elem_of_lookup_2.
Qed.

End AttackerRanges.

(** ** Driver: the test tracker and the log *)

Lemma log_entry_base_test (x : metrics) :
  log_entry "base_" x !! "test"%string = None.
Proof.
  unfold log_entry. simpl. rewrite !lookup_insert_ne by done. apply lookup_empty.
Qed.

Lemma log_entry_epoch_test (x : metrics) :
  log_entry "" x !! "test"%string = Some (test_acc x).
Proof. unfold log_entry. simpl. apply lookup_insert_eq. Qed.

Section DriverMore.
Context {Image Output Forest : Type}.
Context (forward : list param -> list Image -> Output).
Context (autograd : (list param -> option Q) -> list param -> nat -> list Q).
Context (topk : Output -> nat -> list (list Z)).
Context (fit : Z -> split_criterion -> list Q -> list Q -> Forest).
Context (predict_proba1 predict : Forest -> list Q -> list Q).
Context (roc_auc_score : list Q -> list Q -> Q).

Lemma measure_test_entry (m : list param) (lds : loaders Image)
    (criterion : Output -> list Z -> list Q) (x : metrics) :
  measure forward topk fit predict_proba1 predict roc_auc_score m lds criterion
  = Some x ->
  accs_of x !! "test"%string = Some (test_acc x).
Proof.
  unfold measure. intros Hrun.
  destruct (evaluate forward topk m lds criterion) as [[accs losses]|]; [| done].
  simpl in Hrun.
  destruct (compute_mia _ _ _ _ losses) as [mia|]; [| done]. simpl in Hrun.
  destruct (accs !! "test"%string) as [t|] eqn:Ht; [| done]. simpl in Hrun.
  destruct (accs !! "forget"%string) as [f|]; [| done]. simpl in Hrun.
  destruct (accs !! "retain"%string) as [r|]; [| done]. simpl in Hrun.
  destruct (accs !! "val"%string) as [v|]; [| done]. simpl in Hrun.
  by simplify_eq.
Qed.

(** The state of the test tracker: untouched, or holding the accuracies of
    the epoch whose test accuracy is [best_test_acc]; and no logged test
    accuracy is above [best_test_acc]. *)
Let tracked (st : run_state) : Prop :=
  ((best_test st = ∅ /\ best_test_acc st = 0%Q) \/
   (best_test st !! "test"%string = Some (best_test_acc st) /\
    (0 < best_test_acc st)%Q)) /\
  forall (e : gmap string Q) (v : Q),
    e ∈ wandb_log st -> e !! "test"%string = Some v -> (v <= best_test_acc st)%Q.

Lemma epoch_body_tracked (cfg : settings) (lds : loaders Image)
    (criterion : Output -> list Z -> list Q) (mask : gmap string (list Q))
    (draws : nat -> nat -> Z) (st st' : run_state) :
  tracked st ->
  epoch_body forward autograd topk fit predict_proba1 predict roc_auc_score
    cfg lds criterion mask draws st = Some st' ->
  tracked st'.
Proof.
  intros [Hbest Hlog] Hrun. unfold epoch_body in Hrun.
  destruct (select_method _ _ _) as [sel|]; [| done]. simpl in Hrun.
  destruct (unlearn_epoch _ _ _ _ _ _ _ _ _) as [m|]; [| done]. simpl in Hrun.
  destruct (measure _ _ _ _ _ _ m lds criterion) as [x|] eqn:Hx; [| done].
  simpl in Hrun. simplify_eq.
  apply measure_test_entry in Hx.
  assert (Hnonneg : (0 <= best_test_acc st)%Q).
  { destruct Hbest as [[_ ->]|[_ Hpos]]; [done | by apply Qlt_le_weak]. }
  unfold tracked, track_best. simpl.
  destruct (Qgtb (test_acc x) (best_test_acc st)) eqn:Hgt; simpl.
  - apply Qgtb_true in Hgt. split.
    + right. split; [done |]. by eapply Qle_lt_trans.
    + intros e v He Hv.
      assert (Hold : forall e' : gmap string Q, e' ∈ wandb_log st ->
                e' !! "test"%string = Some v -> (v <= test_acc x)%Q).
      { intros e' He' Hv'. apply Qlt_le_weak.
        eapply Qle_lt_trans; [by eapply Hlog | done]. }
      destruct (LOG cfg); [| by eapply Hold].
      apply elem_of_app in He as [He|He]; [by eapply Hold |].
      apply list_elem_of_singleton in He as ->.
      rewrite log_entry_epoch_test in Hv. simplify_eq. apply Qle_refl.
  - apply Qgtb_false in Hgt. split; [done |].
    intros e v He Hv.
    destruct (LOG cfg); [| by eapply Hlog].
    apply elem_of_app in He as [He|He]; [by eapply Hlog |].
    apply list_elem_of_singleton in He as ->.
    rewrite log_entry_epoch_test in Hv. by simplify_eq.
Qed.

Lemma run_epochs_tracked (n : nat) (cfg : settings) (lds : loaders Image)
    (criterion : Output -> list Z -> list Q) (mask : gmap string (list Q))
    (rng : nat -> nat -> nat -> Z) (st0 st : run_state) :
  tracked st0 ->
  run_epochs forward autograd topk fit predict_proba1 predict roc_auc_score
    n cfg lds criterion mask rng st0 = Some st ->
  tracked st /\
  length (wandb_log st)
  = (length (wandb_log st0) + if LOG cfg then n else O)%nat.
Proof.
  intros Hinit. revert st. induction n as [|n IH]; intros st Hrun; simpl in Hrun.
  - simplify_eq. split; [done |]. destruct (LOG cfg); lia.
  - destruct (run_epochs _ _ _ _ _ _ _ n _ _ _ _ _ _) as [st1|]; [| done].
    simpl in Hrun. destruct (IH st1 eq_refl) as [Htr Hlen].
    split; [by eapply epoch_body_tracked |].
    unfold epoch_body in Hrun.
    destruct (select_method _ _ _) as [sel|]; [| done]. simpl in Hrun.
    destruct (unlearn_epoch _ _ _ _ _ _ _ _ _) as [m|]; [| done]. simpl in Hrun.
    destruct (measure _ _ _ _ _ _ m lds criterion) as [x|]; [| done].
    simpl in Hrun. simplify_eq. simpl.
    destruct (LOG cfg); [rewrite length_app; simpl |]; lia.
Qed.

(** At the end of an experiment the test tracker is either untouched
    ([best_test] empty, [best_test_acc] 0: no epoch had a test accuracy above
    0) or [best_test] is a dictionary whose test entry is [best_test_acc];
    and no test accuracy logged for an epoch is above [best_test_acc]. *)
Theorem best_test_is_the_best_epoch (cfg : settings) (lds : loaders Image)
    (criterion : Output -> list Z -> list Q) (mask : gmap string (list Q))
    (rng : nat -> nat -> nat -> Z) (m : list param) (st : run_state) :
  run_experiment forward autograd topk fit predict_proba1 predict roc_auc_score
    cfg lds criterion mask rng m = Some st ->
  ((best_test st = ∅ /\ best_test_acc st = 0%Q) \/
   (best_test st !! "test"%string = Some (best_test_acc st) /\
    (0 < best_test_acc st)%Q)) /\
  forall (e : gmap string Q) (v : Q),
    e ∈ wandb_log st -> e !! "test"%string = Some v -> (v <= best_test_acc st)%Q.
Proof.
  unfold run_experiment. intros Hrun.
  destruct (measure _ _ _ _ _ _ m lds criterion) as [x0|]; [| done].
  simpl in Hrun. eapply run_epochs_tracked in Hrun as [Htr _]; [exact Htr |].
  split; [by left |]. simpl. intros e v He Hv.
  destruct (LOG cfg); [| by apply elem_of_nil in He].
  apply list_elem_of_singleton in He as ->.
  by rewrite log_entry_base_test in Hv.
Qed.

(** An experiment that ends has logged one entry for the initial
    evaluation and one per epoch when logging is on, and nothing when it is
    off. *)
Theorem wandb_log_length (cfg : settings) (lds : loaders Image)
    (criterion : Output -> list Z -> list Q) (mask : gmap string (list Q))
    (rng : nat -> nat -> nat -> Z) (m : list param) (st : run_state) :
  run_experiment forward autograd topk fit predict_proba1 predict roc_auc_score
    cfg lds criterion mask rng m = Some st ->
  length (wandb_log st) = if LOG cfg then S (EPOCHS cfg) else O.
Proof.
  unfold run_experiment. intros Hrun.
  destruct (measure _ _ _ _ _ _ m lds criterion) as [x0|]; [| done].
  simpl in Hrun. eapply run_epochs_tracked in Hrun as [_ Hlen].
  - rewrite Hlen. simpl. by destruct (LOG cfg).
  - split; [by left |]. simpl. intros e v He Hv.
    destruct (LOG cfg); [| by apply elem_of_nil in He].
    apply list_elem_of_singleton in He as ->.
    by rewrite log_entry_base_test in Hv.
Qed.

End DriverMore.

(** ** [test_loop] of the training script *)

Section TestLoop.
Context {Image Output : Type}.
Context (forward : list param -> list Image -> Output).
Context (topk : Output -> nat -> list (list Z)).

Lemma test_batches_top1 (m : list param) (criterion : Output -> list Z -> Q)
    (bs : list (batch Image)) :
  forall st : list Q * Z * Z,
    (fold_left (test_batch forward topk m criterion) bs st).1.2
    = fold_left Z.add
        ((fun b => compute_topk topk (label b) (forward m (image b)) 1) <$> bs)
        st.1.2.
Proof.
  induction bs as [|b bs IH]; intros st; [done |]. csimpl. by rewrite IH.
Qed.

Lemma test_batches_top5 (m : list param) (criterion : Output -> list Z -> Q)
    (bs : list (batch Image)) :
  forall st : list Q * Z * Z,
    (fold_left (test_batch forward topk m criterion) bs st).2
    = fold_left Z.add
        ((fun b => compute_topk topk (label b) (forward m (image b)) 5) <$> bs)
        st.2.
Proof.
  induction bs as [|b bs IH]; intros st; [done |]. csimpl. by rewrite IH.
Qed.

(** [test_loop] raises on an empty dataset; otherwise the top-1 accuracy it
    returns is the top-1 accuracy of the split, whatever was evaluated
    before. *)
Theorem test_loop_top1_accuracy (m : list param) (ld : loader Image)
    (criterion : Output -> list Z -> Q) :
  (dataset_len ld = O -> test_loop forward topk m ld criterion = None) /\
  (dataset_len ld <> O ->
   exists l a5 : Q,
     test_loop forward topk m ld criterion
     = Some (l, top1_accuracy forward topk m ld, a5)).
Proof.
  unfold test_loop. split.
  - by intros ->.
  - intros Hlen. destruct (dataset_len ld) as [|n] eqn:Hn; [done |].
    do 2 eexists. rewrite test_batches_top1. unfold top1_accuracy.
    rewrite Hn. reflexivity.
Qed.

Lemma topk_sum_bound (k : nat) (m : list param) (bs : list (batch Image)) :
  (forall (out : Output) (k : nat), Forall NoDup (topk out k)) ->
  forall z : Z,
    z <= fold_left Z.add
           ((fun b => compute_topk topk (label b) (forward m (image b)) k) <$> bs) z
      <= z + Z.of_nat (length (concat (label <$> bs))).
Proof.
  intros Hrows. induction bs as [|b bs IH]; intros z; csimpl; [lia |].
  specialize (IH (z + compute_topk topk (label b) (forward m (image b)) k)).
  rewrite length_app.
  assert (0 <= compute_topk topk (label b) (forward m (image b)) k
          <= Z.of_nat (length (label b))).
  { unfold compute_topk.
    pose proof (count_rows_bound k (label b) (topk (forward m (image b)) k)
                  (Hrows _ _)). lia. }
  lia.
Qed.

(** When the indices [topk] returns for an example are distinct and the
    loader yields every example of its dataset once, the two accuracies
    [test_loop] returns lie in [0, 1]. *)
Theorem test_loop_accuracies_in_unit_interval (m : list param) (ld : loader Image)
    (criterion : Output -> list Z -> Q) (l a1 a5 : Q) :
  (forall (out : Output) (k : nat), Forall NoDup (topk out k)) ->
  examples ld = dataset_len ld ->
  test_loop forward topk m ld criterion = Some (l, a1, a5) ->
  (0 <= a1 <= 1)%Q /\ (0 <= a5 <= 1)%Q.
Proof.
  intros Hrows Hex. unfold test_loop.
  destruct (dataset_len ld) as [|n] eqn:Hn; [done |]. intros [= _ <- <-].
  rewrite test_batches_top1, test_batches_top5. simpl.
  pose proof (topk_sum_bound 1 m (batches ld) Hrows 0) as H1.
  pose proof (topk_sum_bound 5 m (batches ld) Hrows 0) as H5.
  unfold examples in Hex. rewrite Hex in H1, H5.
  assert (Hpos : (0 < inject_Z (Z.of_nat (S n)))%Q).
  { change 0%Q with (inject_Z 0). rewrite <- Zlt_Qlt. lia. }
  split; split.
  - apply Qdiv_nonneg; apply inject_Z_nonneg; lia.
  - apply Qle_shift_div_r; [done |]. rewrite Qmult_1_l, <- Zle_Qle. lia.
  - apply Qdiv_nonneg; apply inject_Z_nonneg; lia.
  - apply Qle_shift_div_r; [done |]. rewrite Qmult_1_l, <- Zle_Qle. lia.
Qed.

(** On a single split the two evaluators agree: the accuracy
    [eval_unlearning] stores is the top-1 accuracy [test_loop] returns. *)
Theorem eval_unlearning_agrees_with_test_loop (m : list param) (ld : loader Image)
    (name : string) (criterion : Output -> list Z -> list Q)
    (criterion' : Output -> list Z -> Q)
    (accs : gmap string Q) (losses : gmap string (list Q)) :
  eval_unlearning forward topk m [ld] [name] criterion = Some (accs, losses) ->
  exists l a1 a5 a : Q,
    test_loop forward topk m ld criterion' = Some (l, a1, a5) /\
    accs !! name = Some a /\ (a == a1)%Q.
Proof.
  unfold eval_unlearning. intros Hrun.
  assert (Hlen : dataset_len ld <> O).
  { intros Hz. simpl in Hrun. by rewrite Hz in Hrun. }
  apply (eval_splits_accs forward topk m criterion) in Hrun as (_ & Hfirst & _).
  - destruct (Hfirst ld name eq_refl) as (a & Ha & Heq).
    destruct (dataset_len ld) as [|n] eqn:Hn; [done |].
    unfold test_loop. rewrite Hn. do 4 eexists. split; [reflexivity |].
    split; [exact Ha |]. rewrite Heq, test_batches_top1. unfold top1_correct.
    simpl. apply Qdiv_comp; [ring | reflexivity].
  - simpl. apply NoDup_singleton.
Qed.

End TestLoop.

(** ** The epoch loop of the training script *)

Section EarlyStopping.
Context {Image Output Optim : Type}.
Context (forward_train forward : list param -> list Image -> Output).
Context (autograd : (list param -> option Q) -> list param -> nat -> list Q).
Context (topk : Output -> nat -> list (list Z)).
Context (optim_step : Optim -> list param -> Optim * list param).
Context (scheduler_step : Q -> Optim -> Optim).
Context (PAT : Z).
Context (retain_loader val_loader forget_loader : loader Image).
Context (criterion : Output -> list Z -> Q).

(** The checkpoint file is absent and [best_acc] is 0, or the file holds
    the parameters of a model whose validation top-1 accuracy is
    [best_acc]. *)
Let checkpointed (st : fit_state Optim) : Prop :=
  (fit_saved st = None /\ fit_best_acc st = 0%Q) \/
  (exists (m : list param) (opt : Optim) (l a5 : Q),
      fit_saved st = Some (state_dict m, opt) /\
      test_loop forward topk m val_loader criterion = Some (l, fit_best_acc st, a5) /\
      (0 < fit_best_acc st)%Q).

Lemma fit_epoch_step (st st' : fit_state Optim) (stop : bool) :
  fit_epoch forward_train forward autograd topk optim_step scheduler_step PAT
    retain_loader val_loader forget_loader criterion st = Some (st', stop) ->
  checkpointed st -> checkpointed st' /\
  fit_epochs_run st' = S (fit_epochs_run st) /\
  ((fit_pat st' = PAT /\ stop = false) \/
   (fit_pat st' = fit_pat st - 1 /\ stop = (fit_pat st' =? 0))).
Proof.
  unfold fit_epoch. intros Hrun Hck.
  destruct (test_loop forward topk _ val_loader criterion) as [[[l v1] v5]|] eqn:Hv;
    [| done].
  simpl in Hrun.
  destruct (test_loop forward topk _ forget_loader criterion) as [f|]; [| done].
  simpl in Hrun.
  destruct (Qgtb v1 (fit_best_acc st)) eqn:Hgt; simplify_eq; simpl.
  - split; [| split; [done | by left]].
    right. do 4 eexists. simpl. split; [done |]. split; [exact Hv |].
    apply Qgtb_true in Hgt.
    destruct Hck as [[_ Hz]|(_ & _ & _ & _ & _ & _ & Hpos)].
    + by rewrite Hz in Hgt.
    + by eapply Qlt_trans.
  - split; [| split; [done | by right]].
    destruct Hck as [[Hs Hz]|(m & opt & l' & a5 & Hs & Ht & Hpos)].
    + by left.
    + right. by exists m, opt, l', a5.
Qed.

Lemma fit_epochs_inv (n : nat) :
  forall st st' : fit_state Optim,
    fit_epochs forward_train forward autograd topk optim_step scheduler_step n PAT
      retain_loader val_loader forget_loader criterion st = Some st' ->
    checkpointed st ->
    0 < PAT -> 0 < fit_pat st <= PAT ->
    PAT - fit_pat st <= Z.of_nat (fit_epochs_run st) ->
    checkpointed st' /\
    0 <= fit_pat st' <= PAT /\
    PAT - fit_pat st' <= Z.of_nat (fit_epochs_run st') /\
    (fit_epochs_run st <= fit_epochs_run st' <= fit_epochs_run st + n)%nat /\
    ((fit_epochs_run st' < fit_epochs_run st + n)%nat -> fit_pat st' = 0).
Proof.
  induction n as [|n IH]; intros st st' Hrun Hck HPAT Hpat Hcount; simpl in Hrun.
  - simplify_eq. split; [done |]. split; [lia |]. split; [lia |].
    split; [lia |]. intros Hlt. lia.
  - destruct (fit_epoch _ _ _ _ _ _ _ _ _ _ _ st) as [[st1 stop]|] eqn:Hstep;
      [| done].
    destruct (fit_epoch_step st st1 stop Hstep Hck) as (Hck1 & Hrun1 & Hcase).
    destruct stop.
    + simplify_eq. destruct Hcase as [[_ ?]|[Heq Hz]]; [done |].
      symmetry in Hz. apply Z.eqb_eq in Hz.
      split; [done |]. split; [lia |]. split; [lia |]. split; [lia |]. done.
    + assert (Hpat1 : 0 < fit_pat st1 <= PAT).
      { destruct Hcase as [[-> _]|[Heq Hz]]; [lia |].
        symmetry in Hz. apply Z.eqb_neq in Hz. lia. }
      assert (Hcount1 : PAT - fit_pat st1 <= Z.of_nat (fit_epochs_run st1)).
      { destruct Hcase as [[-> _]|[Heq _]]; lia. }
      destruct (IH st1 st' Hrun Hck1 HPAT Hpat1 Hcount1)
        as (Hck' & Hp' & Hc' & Hr' & Hearly).
      split; [done |]. split; [lia |]. split; [lia |]. split; [lia |].
      intros Hlt. apply Hearly. lia.
Qed.

(** After the epoch loop, either no checkpoint was written and [best_acc] is
    still 0, or the checkpoint holds the parameters of a model whose
    validation top-1 accuracy is exactly [best_acc], which is above 0. *)
Theorem checkpoint_has_best_validation_accuracy (EPOCHS : nat) (m : list param)
    (optimizer : Optim) (st : fit_state Optim) :
  0 < PAT ->
  fit_model_for forward_train forward autograd topk optim_step scheduler_step
    EPOCHS PAT retain_loader val_loader forget_loader criterion m optimizer = Some st ->
  (fit_saved st = None /\ fit_best_acc st = 0%Q) \/
  (exists (m' : list param) (opt : Optim) (l a5 : Q),
      fit_saved st = Some (state_dict m', opt) /\
      test_loop forward topk m' val_loader criterion = Some (l, fit_best_acc st, a5) /\
      (0 < fit_best_acc st)%Q).
Proof.
  unfold fit_model_for. intros HPAT Hrun.
  apply fit_epochs_inv in Hrun; [| by left | done | simpl; lia | simpl; lia].
  by destruct Hrun as (Hck & _).
Qed.

(** With a positive patience, the loop runs at most [EPOCHS] epochs, [pat]
    stays between 0 and [PAT], it ends before [EPOCHS] epochs only with
    [pat = 0], and [pat] has been decremented at most once per epoch: the
    loop never stops by patience before [PAT] epochs have run. *)
Theorem patience_bounds (EPOCHS : nat) (m : list param)
    (optimizer : Optim) (st : fit_state Optim) :
  0 < PAT ->
  fit_model_for forward_train forward autograd topk optim_step scheduler_step
    EPOCHS PAT retain_loader val_loader forget_loader criterion m optimizer = Some st ->
  0 <= fit_pat st <= PAT /\
  (fit_epochs_run st <= EPOCHS)%nat /\
  ((fit_epochs_run st < EPOCHS)%nat -> fit_pat st = 0) /\
  (fit_pat st = 0 -> PAT <= Z.of_nat (fit_epochs_run st)).
Proof.
  unfold fit_model_for. intros HPAT Hrun.
  apply fit_epochs_inv in Hrun; [| by left | done | simpl; lia | simpl; lia].
  destruct Hrun as (_ & Hp & Hc & Hr & Hearly). simpl in *.
  split; [lia |]. split; [lia |]. split; [| lia].
  intros Hlt. apply Hearly. lia.
Qed.

End EarlyStopping.

(** ** The further properties on concrete inputs *)

Lemma rand_label_labels_in_range_witness :
  Toy.store !! 1%positive = Some [0; 1] /\
  1 < nclasses Toy.train /\
  exists (loss : Q) (tgt' : list Z),
    rand_label Toy.forward Toy.net [0; 1] 1%positive [3; 4] Toy.criterion Toy.train
      Toy.draw Toy.store = Some (loss, <[1%positive := tgt']> Toy.store) /\
    (forall (k : nat) (i t' : Z),
        [3; 4] !! k = Some i -> i ∈ FORGET (ds Toy.train) -> tgt' !! k = Some t' ->
        0 <= t' < nclasses Toy.train) /\
    (Forall (fun t => 0 <= t < nclasses Toy.train) [0; 1] ->
     Forall (fun t => 0 <= t < nclasses Toy.train) tgt').
Proof.
  assert (H1 : Toy.store !! 1%positive = Some [0; 1]) by reflexivity.
  assert (H2 : length [3; 4] = length [0; 1]) by reflexivity.
  assert (H3 : 1 < nclasses Toy.train) by (vm_compute; reflexivity).
  split; [exact H1 |]. split; [exact H3 |].
  exact (rand_label_labels_in_range Toy.forward Toy.net [0; 1] 1%positive [3; 4]
           Toy.criterion Toy.train Toy.draw Toy.store [0; 1] H1 H2 H3).
Defined.

Lemma rand_label_needs_two_classes_witness :
  nclasses Toy.single <= 1 /\
  rand_label Toy.forward Toy.net [0] 1%positive [4] Toy.criterion Toy.single
    Toy.draw {[ 1%positive := [0] ]} = None.
Proof.
  assert (H1 : nclasses Toy.single <= 1) by (vm_compute; discriminate).
  split; [exact H1 |].
  exact (rand_label_needs_two_classes Toy.forward Toy.net [0] 1%positive [4]
           Toy.criterion Toy.single Toy.draw {[ 1%positive := [0] ]} H1).
Defined.

Lemma toy_not_forgotten : Forall (fun i => i ∉ FORGET (ds Toy.train)) [4; 5].
Proof.
  repeat constructor; simpl; intros Hin;
    repeat (apply elem_of_cons in Hin as [Hin|Hin]; [done |]);
    by apply elem_of_nil in Hin.
Qed.

Lemma toy_all_forgotten : Forall (fun i => i ∈ FORGET (ds Toy.train)) [3; 7].
Proof.
  apply Forall_cons. split; [simpl; by left |].
  apply Forall_cons. split; [simpl; right; by left | apply Forall_nil_2].
Qed.

Lemma rand_label_without_forget_is_retrain_witness :
  rand_label Toy.forward Toy.net [0; 1] 1%positive [4; 5] Toy.criterion Toy.train
    Toy.draw Toy.store
  = retrain Toy.forward Toy.net [0; 1] 1%positive [4; 5] Toy.criterion Toy.train
      Toy.draw Toy.store.
Proof.
  assert (H1 : Toy.store !! 1%positive = Some [0; 1]) by reflexivity.
  assert (H2 : length [4; 5] = length [0; 1]) by reflexivity.
  assert (H3 : 1 < nclasses Toy.train) by (vm_compute; reflexivity).
  exact (proj1 (rand_label_without_forget_is_retrain Toy.forward Toy.net [0; 1]
                  1%positive [4; 5] Toy.criterion Toy.train Toy.draw Toy.store
                  [0; 1] H1 H2 H3 toy_not_forgotten)).
Defined.

Lemma grad_ascent_without_forget_is_retrain_witness :
  grad_ascent Toy.forward Toy.net [1; 1] 1%positive [4; 5] Toy.criterion Toy.train
    Toy.draw Toy.store
  = retrain Toy.forward Toy.net [1; 1] 1%positive [4; 5] Toy.criterion Toy.train
      Toy.draw Toy.store.
Proof.
  assert (H1 : Toy.store !! 1%positive = Some [0; 1]) by reflexivity.
  assert (H2 : length [4; 5]
               = length (Toy.criterion (Toy.forward Toy.net [1; 1]) [0; 1]))
    by reflexivity.
  exact (grad_ascent_without_forget_is_retrain Toy.forward Toy.net [1; 1]
           1%positive [4; 5] Toy.criterion Toy.train Toy.draw Toy.store
           [0; 1] H1 H2 toy_not_forgotten).
Defined.

Lemma grad_ascent_on_forget_is_grad_ascent_small_witness :
  grad_ascent Toy.forward Toy.net [1; 1] 1%positive [3; 7] Toy.criterion Toy.train
    Toy.draw Toy.store
  = grad_ascent_small Toy.forward Toy.net [1; 1] 1%positive [3; 7] Toy.criterion
      Toy.train Toy.draw Toy.store.
Proof.
  assert (H1 : Toy.store !! 1%positive = Some [0; 1]) by reflexivity.
  assert (H2 : length [3; 7]
               = length (Toy.criterion (Toy.forward Toy.net [1; 1]) [0; 1]))
    by reflexivity.
  exact (grad_ascent_on_forget_is_grad_ascent_small Toy.forward Toy.net [1; 1]
           1%positive [3; 7] Toy.criterion Toy.train Toy.draw Toy.store
           [0; 1] H1 H2 toy_all_forgotten).
Defined.

Lemma grad_ascent_small_is_opposite_of_retrain_witness :
  exists l l' : Q,
    retrain Toy.forward Toy.net [1; 1] 1%positive [3; 4] Toy.criterion Toy.train
      Toy.draw Toy.store = Some (l, Toy.store) /\
    grad_ascent_small Toy.forward Toy.net [1; 1] 1%positive [3; 4] Toy.criterion
      Toy.train Toy.draw Toy.store = Some (l', Toy.store) /\
    (l' == - l)%Q.
Proof.
  assert (H1 : Toy.store !! 1%positive = Some [0; 1]) by reflexivity.
  exact (grad_ascent_small_is_opposite_of_retrain Toy.forward Toy.net [1; 1]
           1%positive [3; 4] Toy.criterion Toy.train Toy.draw Toy.store [0; 1] H1).
Defined.

Lemma unlearn_batch_keeps_names_and_shapes_witness :
  exists m' : list param,
    unlearn_batch Toy.autograd (rand_label Toy.forward) Toy.criterion Toy.train
      true Toy.half_mask (1 # 10)%Q Toy.net
      {| image := [0; 1]; label := [0; 1]; idx := [3; 4] |} Toy.draw = Some m' /\
    p_name <$> m' = p_name <$> Toy.net /\
    Forall (fun p => p_grad p = None) m'.
Proof.
  eexists. split; [vm_compute; reflexivity |].
  match goal with
  | |- p_name <$> ?m' = _ /\ _ =>
      assert (Hrun : unlearn_batch Toy.autograd (rand_label Toy.forward)
                       Toy.criterion Toy.train true Toy.half_mask (1 # 10)%Q Toy.net
                       {| image := [0; 1]; label := [0; 1]; idx := [3; 4] |}
                       Toy.draw = Some m') by (vm_compute; reflexivity)
  end.
  destruct (unlearn_batch_keeps_names_and_shapes Toy.autograd _ _ _ _ _ _ _ _ _ _ Hrun)
    as (Hnames & Hgrads & _).
  split; [exact Hnames | exact Hgrads].
Defined.

Lemma masked_update_freezes_zero_entries_witness :
  exists (m' : list param) (p' : param),
    unlearn_batch Toy.autograd (rand_label Toy.forward) Toy.criterion Toy.train
      true Toy.half_mask (1 # 10)%Q Toy.net
      {| image := [0; 1]; label := [0; 1]; idx := [3; 4] |} Toy.draw = Some m' /\
    m' !! O = Some p' /\
    exists d' : Q, p_data p' !! O = Some d' /\ (d' == 1)%Q.
Proof.
  eexists.
  match goal with
  | |- exists p', ?run = Some ?m' /\ _ =>
      assert (Hrun : run = Some m') by (vm_compute; reflexivity)
  end.
  assert (Hnone : Forall (fun p => p_grad p = None) Toy.net) by (repeat constructor).
  destruct (masked_update_freezes_zero_entries Toy.autograd _ _ _ _ _ _ _ _ _
              O _ [0; 1]%Q Hnone Hrun eq_refl eq_refl) as (p' & Hp' & Hentries).
  exists p'. split; [exact Hrun |]. split; [exact Hp' |].
  destruct (Hentries O 1%Q 1%Q 0%Q eq_refl eq_refl eq_refl) as (d' & Hd' & Hzero & _).
  exists d'. split; [exact Hd' |]. by apply Hzero.
Defined.

Lemma toy_foreign_name : "head.weight"%string ∉ p_name <$> Toy.net.
Proof.
  simpl. intros Hin.
  repeat (apply elem_of_cons in Hin as [Hin|Hin]; [done |]).
  by apply elem_of_nil in Hin.
Qed.

Lemma foreign_mask_entry_is_ignored_witness :
  unlearn_batches Toy.autograd (rand_label Toy.forward) Toy.criterion Toy.train
    true (<["head.weight"%string := [0]%Q]> Toy.half_mask) (1 # 10)%Q Toy.net
    (batches Toy.train) (Toy.rng 0) 0
  = unlearn_batches Toy.autograd (rand_label Toy.forward) Toy.criterion Toy.train
      true Toy.half_mask (1 # 10)%Q Toy.net (batches Toy.train) (Toy.rng 0) 0.
Proof.
  exact (foreign_mask_entry_is_ignored Toy.autograd (rand_label Toy.forward)
           Toy.criterion Toy.train true Toy.half_mask "head.weight" [0]%Q
           (1 # 10)%Q Toy.net (batches Toy.train) (Toy.rng 0) 0%nat
           toy_foreign_name).
Defined.

Lemma toy_names_NoDup : NoDup ["test"; "forget"; "retain"; "val"]%string.
Proof.
  repeat (apply NoDup_cons; split;
          [intros Hin;
           repeat (apply elem_of_cons in Hin as [Hin|Hin]; [done |]);
           by apply elem_of_nil in Hin |]).
  apply NoDup_nil_2.
Qed.

Lemma eval_unlearning_keys_witness :
  exists (accs : gmap string Q) (losses : gmap string (list Q)),
    eval_unlearning Toy.forward Toy.topk Toy.net
      [test_loader Toy.all_right; forget_loader Toy.all_right]
      ["test"; "forget"; "retain"]%string Toy.criterion = Some (accs, losses) /\
    (is_Some (accs !! "retain"%string) <->
     exists (k : nat) (ld : loader Z),
       [test_loader Toy.all_right; forget_loader Toy.all_right] !! k = Some ld /\
       ["test"; "forget"; "retain"]%string !! k = Some "retain"%string).
Proof.
  do 2 eexists. split; [vm_compute; reflexivity |].
  match goal with
  | |- is_Some (?accs !! _) <-> _ =>
      match type of accs with
      | _ =>
          refine (proj1 (eval_unlearning_keys Toy.forward Toy.topk Toy.net
                           [test_loader Toy.all_right; forget_loader Toy.all_right]
                           ["test"; "forget"; "retain"]%string Toy.criterion
                           accs _ _ "retain"%string))
      end
  end.
  vm_compute. reflexivity.
Defined.

Lemma eval_unlearning_first_split_accuracy_witness :
  exists (accs : gmap string Q) (losses : gmap string (list Q)) (a : Q),
    eval_unlearning Toy.forward Toy.topk Toy.net
      [test_loader Toy.forget_missed; forget_loader Toy.forget_missed;
       retain_loader Toy.forget_missed; val_loader Toy.forget_missed]
      ["test"; "forget"; "retain"; "val"]%string Toy.criterion
    = Some (accs, losses) /\
    accs !! "test"%string = Some a /\
    (a == top1_accuracy Toy.forward Toy.topk Toy.net
            (test_loader Toy.forget_missed))%Q.
Proof.
  do 2 eexists.
  match goal with
  | |- exists a, ?run = Some (?accs, ?losses) /\ _ =>
      assert (Hrun : run = Some (accs, losses)) by (vm_compute; reflexivity)
  end.
  destruct (eval_unlearning_first_split_accuracy Toy.forward Toy.topk Toy.net
              _ _ _ _ Toy.criterion _ _ toy_names_NoDup Hrun) as (a & Ha & Heq).
  exists a. split; [exact Hrun |]. split; [exact Ha | exact Heq].
Defined.

Lemma eval_unlearning_accuracy_recurrence_witness :
  exists (accs : gmap string Q) (losses : gmap string (list Q)) (a a' : Q),
    eval_unlearning Toy.forward Toy.topk Toy.net
      [test_loader Toy.forget_missed; forget_loader Toy.forget_missed;
       retain_loader Toy.forget_missed; val_loader Toy.forget_missed]
      ["test"; "forget"; "retain"; "val"]%string Toy.criterion
    = Some (accs, losses) /\
    accs !! "forget"%string = Some a /\ accs !! "retain"%string = Some a' /\
    (a' == (a + inject_Z (top1_correct Toy.forward Toy.topk Toy.net
                            (retain_loader Toy.forget_missed)))
           / inject_Z (Z.of_nat (dataset_len (retain_loader Toy.forget_missed))))%Q.
Proof.
  do 2 eexists.
  match goal with
  | |- exists a a', ?run = Some (?accs, ?losses) /\ _ =>
      assert (Hrun : run = Some (accs, losses)) by (vm_compute; reflexivity)
  end.
  destruct (eval_unlearning_accuracy_recurrence Toy.forward Toy.topk Toy.net
              _ _ Toy.criterion _ _ 1%nat
              (forget_loader Toy.forget_missed) (retain_loader Toy.forget_missed)
              "forget"%string "retain"%string
              toy_names_NoDup Hrun eq_refl eq_refl eq_refl eq_refl)
    as (a & a' & Ha & Ha' & Heq).
  exists a, a'. split; [exact Hrun |]. split; [exact Ha |].
  split; [exact Ha' | exact Heq].
Defined.

Lemma toy_topk_NoDup (out : list Z) (k : nat) : Forall NoDup (Toy.topk out k).
Proof.
  unfold Toy.topk. apply Forall_fmap, Forall_forall. intros c _. simpl.
  apply NoDup_fmap_2; [| apply NoDup_seq].
  intros i j Hij. lia.
Qed.

Lemma compute_topk_at_most_batch_size_witness :
  0 <= compute_topk Toy.topk [1; 5; 2] [1; 2; 2] 5 <= Z.of_nat (length [1; 5; 2]).
Proof.
  exact (compute_topk_at_most_batch_size Toy.topk [1; 5; 2] [1; 2; 2] 5
           (toy_topk_NoDup [1; 2; 2] 5)).
Defined.

Lemma toy_half_auc_range (y_true y_score : list Q) :
  (0 <= Toy.half_auc y_true y_score <= 1)%Q.
Proof. unfold Toy.half_auc. lra. Qed.

Lemma compute_basic_mia_range_witness :
  (0 <= (compute_basic_mia Toy.fit Toy.predict_proba1 Toy.predict Toy.half_auc
           [1%Q] [1%Q] [1%Q] [1%Q]).1 <= 100)%Q /\
  (0 <= (compute_basic_mia Toy.fit Toy.predict_proba1 Toy.predict Toy.half_auc
           [1%Q] [1%Q] [1%Q] [1%Q]).2 <= 100)%Q.
Proof.
  exact (compute_basic_mia_range Toy.fit Toy.predict_proba1 Toy.predict Toy.half_auc
           toy_predict_labels toy_half_auc_range [1%Q] [1%Q] [1%Q] [1%Q]).
Defined.

Lemma best_test_is_the_best_epoch_witness :
  exists st : run_state,
    run_experiment Toy.forward Toy.autograd Toy.topk Toy.fit Toy.predict_proba1
      Toy.predict Toy.roc_auc_score Toy.cfg Toy.all_right Toy.criterion
      Toy.ones_mask Toy.rng Toy.net = Some st /\
    forall (e : gmap string Q) (v : Q),
      e ∈ wandb_log st -> e !! "test"%string = Some v -> (v <= best_test_acc st)%Q.
Proof.
  eexists. split; [vm_compute; reflexivity |].
  refine (proj2 (best_test_is_the_best_epoch Toy.forward Toy.autograd Toy.topk
                   Toy.fit Toy.predict_proba1 Toy.predict Toy.roc_auc_score Toy.cfg
                   Toy.all_right Toy.criterion Toy.ones_mask Toy.rng Toy.net _ _)).
  vm_compute. reflexivity.
Defined.

Lemma wandb_log_length_witness :
  exists st : run_state,
    run_experiment Toy.forward Toy.autograd Toy.topk Toy.fit Toy.predict_proba1
      Toy.predict Toy.roc_auc_score Toy.cfg Toy.all_right Toy.criterion
      Toy.ones_mask Toy.rng Toy.net = Some st /\
    length (wandb_log st) = 3%nat.
Proof.
  eexists. split; [vm_compute; reflexivity |].
  refine (wandb_log_length Toy.forward Toy.autograd Toy.topk
            Toy.fit Toy.predict_proba1 Toy.predict Toy.roc_auc_score Toy.cfg
            Toy.all_right Toy.criterion Toy.ones_mask Toy.rng Toy.net _ _).
  vm_compute. reflexivity.
Defined.

Lemma test_loop_accuracies_in_unit_interval_witness :
  exists l a1 a5 : Q,
    test_loop Toy.forward Toy.topk Toy.net Toy.train Toy.mean_criterion
    = Some (l, a1, a5) /\
    (0 <= a1 <= 1)%Q /\ (0 <= a5 <= 1)%Q.
Proof.
  do 3 eexists. split; [vm_compute; reflexivity |].
  refine (test_loop_accuracies_in_unit_interval Toy.forward Toy.topk Toy.net
            Toy.train Toy.mean_criterion _ _ _ toy_topk_NoDup eq_refl _).
  vm_compute. reflexivity.
Defined.

Lemma eval_unlearning_agrees_with_test_loop_witness :
  exists (accs : gmap string Q) (losses : gmap string (list Q)) (l a1 a5 a : Q),
    eval_unlearning Toy.forward Toy.topk Toy.net [Toy.train] ["train"%string]
      Toy.criterion = Some (accs, losses) /\
    test_loop Toy.forward Toy.topk Toy.net Toy.train Toy.mean_criterion
    = Some (l, a1, a5) /\
    accs !! "train"%string = Some a /\ (a == a1)%Q.
Proof.
  do 2 eexists.
  match goal with
  | |- exists l a1 a5 a, ?run = Some (?accs, ?losses) /\ _ =>
      assert (Hrun : run = Some (accs, losses)) by (vm_compute; reflexivity)
  end.
  destruct (eval_unlearning_agrees_with_test_loop Toy.forward Toy.topk Toy.net
              Toy.train "train"%string Toy.criterion Toy.mean_criterion _ _ Hrun)
    as (l & a1 & a5 & a & Ht & Ha & Heq).
  exists l, a1, a5, a. split; [exact Hrun |]. split; [exact Ht |].
  split; [exact Ha | exact Heq].
Defined.

Lemma checkpoint_has_best_validation_accuracy_witness :
  exists st : fit_state unit,
    fit_model_for Toy.forward Toy.forward Toy.autograd Toy.topk Toy.optim_step
      Toy.sched_step 5 2 (retain_loader Toy.all_right) (val_loader Toy.all_right)
      (forget_loader Toy.all_right) Toy.mean_criterion Toy.net tt = Some st /\
    ((fit_saved st = None /\ fit_best_acc st = 0%Q) \/
     (exists (m' : list param) (opt : unit) (l a5 : Q),
         fit_saved st = Some (state_dict m', opt) /\
         test_loop Toy.forward Toy.topk m' (val_loader Toy.all_right)
           Toy.mean_criterion = Some (l, fit_best_acc st, a5) /\
         (0 < fit_best_acc st)%Q)).
Proof.
  eexists. split; [vm_compute; reflexivity |].
  refine (checkpoint_has_best_validation_accuracy Toy.forward Toy.forward
            Toy.autograd Toy.topk Toy.optim_step Toy.sched_step 2
            (retain_loader Toy.all_right) (val_loader Toy.all_right)
            (forget_loader Toy.all_right) Toy.mean_criterion 5 Toy.net tt _ _ _).
  - lia.
  - vm_compute. reflexivity.
Defined.

Lemma patience_bounds_witness :
  exists st : fit_state unit,
    fit_model_for Toy.forward Toy.forward Toy.autograd Toy.topk Toy.optim_step
      Toy.sched_step 5 2 (retain_loader Toy.all_right) (val_loader Toy.all_right)
      (forget_loader Toy.all_right) Toy.mean_criterion Toy.net tt = Some st /\
    fit_pat st = 0 /\ fit_epochs_run st = 3%nat /\
    (fit_pat st = 0 -> 2 <= Z.of_nat (fit_epochs_run st)).
Proof.
  eexists. split; [vm_compute; reflexivity |].
  split; [reflexivity |]. split; [reflexivity |].
  refine (proj2 (proj2 (proj2
            (patience_bounds Toy.forward Toy.forward
               Toy.autograd Toy.topk Toy.optim_step Toy.sched_step 2
               (retain_loader Toy.all_right) (val_loader Toy.all_right)
               (forget_loader Toy.all_right) Toy.mean_criterion 5 Toy.net tt
               _ _ _)))).
  - lia.
  - vm_compute. reflexivity.
Defined.
